(** * circuitbreaker.py: the breaker state machine and the monitor registry

    A shallow embedding of [src/circuitbreaker.py].

    - Python integers are [Z].
    - A [datetime] is the number of microseconds since the epoch, a [Z];
      [timedelta(seconds=n)] is [1000000 * n] microseconds.  Every place where
      the source reads [datetime.utcnow()] takes the reading as an argument.
    - A method that mutates [self] returns the new record.
    - A call that may raise returns an [Outcome].
    - The monitor's class-level dict maps names to object references; objects
      live in a store so that identity and aliasing are visible. *)

From Stdlib Require Import ZArith.
From stdpp Require Import gmap strings list fin_maps.

Local Open Scope string_scope.
Local Open Scope Z_scope.

(** ** Module constants *)

(** [STATE_CLOSED = 'closed'], [STATE_OPEN = 'open'],
    [STATE_HALF_OPEN = 'half_open'].  The state attribute is only ever
    assigned one of these three constants, so [==] and [is] agree on it. *)
Inductive State : Type :=
  | STATE_CLOSED
  | STATE_OPEN
  | STATE_HALF_OPEN.

#[global] Instance State_eq_dec : EqDecision State.
Proof. solve_decision. Defined.

Definition State_str (s : State) : string :=
  match s with
  | STATE_CLOSED => "closed"
  | STATE_OPEN => "open"
  | STATE_HALF_OPEN => "half_open"
  end.

(** ** Python values the breaker handles *)

(** An exception instance: the names of the classes on the method resolution
    order of its class (most derived first) and its message. *)
Record Exn : Type := mkExn {
  exc_mro : list string;
  exc_args : string
}.

#[global] Instance Exn_eq_dec : EqDecision Exn.
Proof. solve_decision. Defined.

(** [return v] or [raise e]. *)
Inductive Outcome (A E : Type) : Type :=
  | Return (a : A)
  | Raise (e : E).
Arguments Return {A E} a.
Arguments Raise {A E} e.

(** [except classes:] catches [e] when [isinstance(e, classes)]: one of the
    classes (a single class is a one-element tuple) is on the MRO of [e]. *)
Definition isinstance (e : Exn) (classes : list string) : bool :=
  existsb (fun c => bool_decide (c ∈ exc_mro e)) classes.

(** ** class CircuitBreaker *)

Record CircuitBreaker : Type := mkCircuitBreaker {
  _expected_exception : list string;
  _failure_count : Z;
  _failure_threshold : Z;
  _recover_timeout : Z;          (* seconds *)
  _state : State;
  _opened : Z;                   (* microseconds since the epoch *)
  _name : option string          (* [None] until named *)
}.

#[global] Instance CircuitBreaker_eq_dec : EqDecision CircuitBreaker.
Proof. solve_decision. Defined.

Definition set_state (self : CircuitBreaker) (s : State) : CircuitBreaker :=
  mkCircuitBreaker (_expected_exception self) (_failure_count self)
    (_failure_threshold self) (_recover_timeout self) s (_opened self)
    (_name self).

Definition set_failure_count (self : CircuitBreaker) (n : Z) : CircuitBreaker :=
  mkCircuitBreaker (_expected_exception self) n
    (_failure_threshold self) (_recover_timeout self) (_state self)
    (_opened self) (_name self).

Definition set_opened (self : CircuitBreaker) (t : Z) : CircuitBreaker :=
  mkCircuitBreaker (_expected_exception self) (_failure_count self)
    (_failure_threshold self) (_recover_timeout self) (_state self) t
    (_name self).

Definition set_name (self : CircuitBreaker) (n : option string) : CircuitBreaker :=
  mkCircuitBreaker (_expected_exception self) (_failure_count self)
    (_failure_threshold self) (_recover_timeout self) (_state self)
    (_opened self) n.

(** The defaults of [__init__]'s keyword arguments. *)
Definition default_expected_exception : list string := ["Exception"].
Definition default_failure_threshold : Z := 5.
Definition default_recover_timeout : Z := 30.

(** [__init__]: seven assignments, none of them guarded; [utcnow] is the
    reading of [datetime.utcnow()]. *)
Definition __init__ (expected_exception : list string)
    (failure_threshold recover_timeout : Z) (name : option string)
    (utcnow : Z) : Outcome CircuitBreaker Exn :=
  Return (mkCircuitBreaker expected_exception 0 failure_threshold
            recover_timeout STATE_CLOSED utcnow name).

(** [open_until]: [self._opened + timedelta(seconds=self._recover_timeout)],
    in exact arithmetic.  This is the value of the source's expression
    whenever that expression has one, which is when the sum lies in the range
    of [datetime]; outside it the source raises [OverflowError], which
    [open_until_checked] below models. *)
Definition open_until (self : CircuitBreaker) : Z :=
  _opened self + 1000000 * _recover_timeout self.

(** [open_remaining]: [(self.open_until - datetime.utcnow()).total_seconds()].
    The float returned by the source is this number of microseconds divided
    by [10**6]; both have the same sign. *)
Definition open_remaining (self : CircuitBreaker) (utcnow : Z) : Z :=
  open_until self - utcnow.

Definition failure_count (self : CircuitBreaker) : Z := _failure_count self.

(** [closed]: [self._state is not STATE_OPEN]. *)
Definition closed (self : CircuitBreaker) : bool :=
  negb (bool_decide (_state self = STATE_OPEN)).

Definition name (self : CircuitBreaker) : option string := _name self.

Definition state (self : CircuitBreaker) : State := _state self.

(** [open]. *)
Definition open (self : CircuitBreaker) (utcnow : Z) : CircuitBreaker :=
  set_opened (set_state self STATE_OPEN) utcnow.

(** [close]. *)
Definition close (self : CircuitBreaker) : CircuitBreaker :=
  set_failure_count (set_state self STATE_CLOSED) 0.

(** [__is_closed]: the gating check.  [and] short-circuits, so the clock is
    read only when the state is open. *)
Definition __is_closed (self : CircuitBreaker) (utcnow : Z)
    : bool * CircuitBreaker :=
  if bool_decide (_state self = STATE_OPEN) && (open_remaining self utcnow <=? 0)
  then (true, set_state self STATE_HALF_OPEN)
  else (bool_decide (_state self = STATE_CLOSED), self).

(** [__success]. *)
Definition __success (self : CircuitBreaker) : CircuitBreaker := close self.

(** [__failure]. *)
Definition __failure (self : CircuitBreaker) (utcnow : Z) : CircuitBreaker :=
  let self := set_failure_count self (_failure_count self + 1) in
  if _failure_count self >=? _failure_threshold self
  then open self utcnow
  else self.

(** ** class CircuitBreakerError *)

(** The instance dictionary of the error object.  [__init__] stores the breaker
    under ["_circuit_breaker"]; the base class [Exception] defines no attribute
    of either name that [__str__] asks for, so attribute access is a lookup in
    this dictionary.  The breaker is held as it is when the error is raised;
    a rejected call does not change it. *)
Record CircuitBreakerError : Type := mkCircuitBreakerError {
  err_dict : gmap string CircuitBreaker
}.

Definition CircuitBreakerError_init (circuit_breaker : CircuitBreaker)
    : CircuitBreakerError :=
  mkCircuitBreakerError {[ "_circuit_breaker" := circuit_breaker ]}.

Definition AttributeError (attr : string) : Exn :=
  mkExn ["AttributeError"; "Exception"; "BaseException"; "object"]
        ("'CircuitBreakerError' object has no attribute '" +:+ attr +:+ "'").

Definition getattr (self : CircuitBreakerError) (attr : string)
    : Outcome CircuitBreaker Exn :=
  match err_dict self !! attr with
  | Some v => Return v
  | None => Raise (AttributeError attr)
  end.

Definition bind {A B E : Type} (m : Outcome A E) (k : A -> Outcome B E)
    : Outcome B E :=
  match m with
  | Return a => k a
  | Raise e => Raise e
  end.

Notation "'do' x <- m ; k" := (bind m (fun x => k))
  (at level 10, x name, m at level 100, k at level 200).

(** Python's [round] on a float [num / den] with [den > 0]: to the nearest
    integer, ties to the even one. *)
Definition round (num den : Z) : Z :=
  let q := num / den in
  let r := num mod den in
  if 2 * r <? den then q
  else if den <? 2 * r then q + 1
  else if Z.even q then q else q + 1.

(** The four operands of the [%] in [__str__], in order: for [%s], [%s], [%d]
    and [%d].  The rendering of a [datetime] by [%s] is not modelled; the
    message is determined by these operands. *)
Record MessageOperands : Type := mkMessageOperands {
  msg_name : option string;
  msg_open_until : Z;
  msg_failure_count : Z;
  msg_sec_remaining : Z
}.

(** [__str__]: the operands are evaluated left to right, each through an
    attribute access on [self]. *)
Definition CircuitBreakerError_str (self : CircuitBreakerError) (utcnow : Z)
    : Outcome MessageOperands Exn :=
  do b1 <- getattr self "_circuit_breaker";
  do b2 <- getattr self "_circuiit_breaker";
  do b3 <- getattr self "_circuit_breaker";
  do b4 <- getattr self "_circuit_breaker";
  Return (mkMessageOperands (name b1) (open_until b2) (failure_count b3)
            (round (open_remaining b4 utcnow) 1000000)).

(** ** CircuitBreaker.call *)

Section Call.
(** [Env] is whatever the wrapped function can reach and mutate (its
    arguments are part of it); [Res] is what it returns. *)
Context {Env Res : Type}.

(** The wrapped function.  It runs after the gating check and may look at
    the breaker (first argument) while it runs; it does not call the
    breaker's methods. *)
Definition Func : Type := CircuitBreaker -> Env -> Outcome Res Exn * Env.

(** How [call] ends: [return result], the function's exception passing
    through, or [raise CircuitBreakerError(self)]. *)
Inductive CallResult : Type :=
  | Returned (result : Res)
  | Propagated (e : Exn)
  | Rejected (err : CircuitBreakerError).

(** The [try] statement of [call] and what follows it, given what the
    function did.  [utcnow] is the clock reading of [open]. *)
Definition guarded (self : CircuitBreaker) (ran : Outcome Res Exn * Env)
    (utcnow : Z) : CallResult * CircuitBreaker * Env :=
  match ran with
  | (Raise e, env) =>
      if isinstance e (_expected_exception self)
      then (Propagated e, __failure self utcnow, env)
      else (Propagated e, self, env)
  | (Return result, env) => (Returned result, __success self, env)
  end.

(** [call]: [t_gate] is the clock reading of the gating check, [t_after] the
    one taken after the function has failed. *)
Definition call (self : CircuitBreaker) (func : Func) (env : Env)
    (t_gate t_after : Z) : CallResult * CircuitBreaker * Env :=
  let '(ok, self) := __is_closed self t_gate in
  if negb ok
  then (Rejected (CircuitBreakerError_init self), self, env)
  else guarded self (func self env) t_after.

(** A result that is a failure the breaker counts: the function's exception,
    of one of [classes], passing through. *)
Definition classified_failure (classes : list string) (r : CallResult)
    : Prop :=
  exists e, r = Propagated e /\ isinstance e classes = true.

(** One use of the breaker by its owner. *)
Inductive Action : Type :=
  | DoCall (func : Func) (t_gate t_after : Z)
  | DoOpen (utcnow : Z)
  | DoClose.

Definition perform (self : CircuitBreaker) (env : Env) (a : Action)
    : CircuitBreaker * Env :=
  match a with
  | DoCall func t_gate t_after =>
      let '(_, self, env) := call self func env t_gate t_after in (self, env)
  | DoOpen utcnow => (open self utcnow, env)
  | DoClose => (close self, env)
  end.

Fixpoint perform_all (self : CircuitBreaker) (env : Env) (l : list Action)
    : CircuitBreaker * Env :=
  match l with
  | [] => (self, env)
  | a :: l => let '(self, env) := perform self env a in perform_all self env l
  end.

(** A run of calls, one after the other, with the results in order. *)
Fixpoint calls (self : CircuitBreaker) (env : Env)
    (l : list (Func * Z * Z)) : list CallResult * CircuitBreaker * Env :=
  match l with
  | [] => ([], self, env)
  | (func, t_gate, t_after) :: l =>
      let '(r, self, env) := call self func env t_gate t_after in
      let '(rs, self, env) := calls self env l in
      (r :: rs, self, env)
  end.
End Call.

Arguments Func : clear implicits.
Arguments CallResult : clear implicits.
Arguments Action : clear implicits.
Arguments classified_failure {Res} classes r.

(** ** class CircuitBreakerMonitor *)

(** Breaker objects live in a store; a reference is a key of the store. *)
Abbreviation ref := positive (only parsing).
Abbreviation Store := (gmap positive CircuitBreaker) (only parsing).
(** The class attribute [circuit_breakers = {}]: name (possibly [None]) to
    breaker reference. *)
Abbreviation Registry := (gmap (option string) positive) (only parsing).

(** [register]: [cls.circuit_breakers[circuit_breaker.name] = circuit_breaker].
    A reference always designates a live object; the other branch is never
    taken. *)
Definition register (σ : Store) (circuit_breakers : Registry)
    (circuit_breaker : ref) : Registry :=
  match σ !! circuit_breaker with
  | Some b => <[ name b := circuit_breaker ]> circuit_breakers
  | None => circuit_breakers
  end.

(** [get_circuits]: the dict's values.  The source yields them in insertion
    order, the list here is in key order; what is in the list is the same. *)
Definition get_circuits (circuit_breakers : Registry) : list ref :=
  (map_to_list circuit_breakers).*2.

(** [get]: [dict.get], [None] for an unknown name. *)
Definition get (circuit_breakers : Registry) (name : option string)
    : option ref :=
  circuit_breakers !! name.

Definition is_open (σ : Store) (circuit : ref) : bool :=
  match σ !! circuit with
  | Some b => bool_decide (state b = STATE_OPEN)
  | None => false
  end.

(** [get_open]. *)
Definition get_open (σ : Store) (circuit_breakers : Registry) : list ref :=
  List.filter (is_open σ) (get_circuits circuit_breakers).

(** [get_closed]. *)
Definition get_closed (σ : Store) (circuit_breakers : Registry) : list ref :=
  List.filter (fun c => negb (is_open σ c)) (get_circuits circuit_breakers).

(** [all_closed]. *)
Definition all_closed (σ : Store) (circuit_breakers : Registry) : bool :=
  match get_open σ circuit_breakers with
  | [] => true
  | _ :: _ => false
  end.

(** [CircuitBreaker.__call__]: name the breaker after the wrapped function if
    it has no name yet, then register it. *)
Definition __call__ (σ : Store) (circuit_breakers : Registry) (self : ref)
    (wrapped_name : string) : Store * Registry :=
  match σ !! self with
  | Some b =>
      let b := match _name b with
               | None => set_name b (Some wrapped_name)
               | Some _ => b
               end in
      let σ := <[ self := b ]> σ in
      (σ, register σ circuit_breakers self)
  | None => (σ, circuit_breakers)
  end.

(** [call] on a breaker object of the store: the mutation is visible through
    every reference to it.  The wrapped function is a [Func]: it reaches no
    breaker object of the store, so a function that itself calls functions
    guarded by other breakers is not covered. *)
Definition call_at {Env Res : Type} (σ : Store) (self : ref)
    (func : Func Env Res) (env : Env) (t_gate t_after : Z)
    : option (CallResult Res * Store * Env) :=
  match σ !! self with
  | Some b =>
      let '(r, b, env) := call b func env t_gate t_after in
      Some (r, <[ self := b ]> σ, env)
  | None => None
  end.

(** ** Sample exceptions, functions and breakers *)

Definition ValueError (msg : string) : Exn :=
  mkExn ["ValueError"; "Exception"; "BaseException"; "object"] msg.

(** Not a subclass of [Exception]. *)
Definition KeyboardInterrupt : Exn :=
  mkExn ["KeyboardInterrupt"; "BaseException"; "object"] "".

(** Stub functions whose environment is a log of the breaker states they saw,
    one entry per invocation. *)
Definition failing_stub : Func (list State) unit :=
  fun b log => (Raise (ValueError "boom"), (log ++ [state b])%list).

Definition interrupted_stub : Func (list State) unit :=
  fun b log => (Raise KeyboardInterrupt, (log ++ [state b])%list).

Definition succeeding_stub : Func (list State) unit :=
  fun b log => (Return tt, (log ++ [state b])%list).

(** [CircuitBreaker(name="svc")] constructed at time 0. *)
Definition fresh_breaker : CircuitBreaker :=
  mkCircuitBreaker default_expected_exception 0 default_failure_threshold
    default_recover_timeout STATE_CLOSED 0 (Some "svc").

(** [CircuitBreaker(failure_threshold=3, recover_timeout=10, name="svc")]. *)
Definition small_breaker : CircuitBreaker :=
  mkCircuitBreaker default_expected_exception 0 3 10 STATE_CLOSED 0
    (Some "svc").

(** [fresh_breaker] after five failing calls, the last one at 7 s. *)
Definition tripped_breaker : CircuitBreaker :=
  (perform_all fresh_breaker []
     [DoCall failing_stub 1000000 1000001; DoCall failing_stub 2000000 2000001;
      DoCall failing_stub 3000000 3000001; DoCall failing_stub 4000000 4000001;
      DoCall failing_stub 7000000 7000001]).1.

(** ** [str] of a breaker, the decorated function, and runs *)

Definition TypeError (msg : string) : Exn :=
  mkExn ["TypeError"; "Exception"; "BaseException"; "object"] msg.

(** [str(breaker)]: [CircuitBreaker.__str__] returns [self._name], and [str]
    raises [TypeError] when what [__str__] returns is not a string. *)
Definition CircuitBreaker_str (self : CircuitBreaker) : Outcome string Exn :=
  match _name self with
  | Some n => Return n
  | None => Raise (TypeError "__str__ returned non-string (type NoneType)")
  end.

(** The [wrapper] that [__call__] returns: a call of the decorated function
    is [self.call(wrapped, ...)] on the breaker object. *)
Definition wrapper {Env Res : Type} (self : ref) (wrapped : Func Env Res)
    (σ : Store) (env : Env) (t_gate t_after : Z)
    : option (CallResult Res * Store * Env) :=
  call_at σ self wrapped env t_gate t_after.

(** The function raises nothing but exceptions of [classes]. *)
Definition raises_only {Env Res : Type} (classes : list string)
    (func : Func Env Res) : Prop :=
  forall b env e env', func b env = (Raise e, env') ->
    isinstance e classes = true.

(** An action of the breaker's automatic operation: a call whose function
    raises only what the breaker expects, or [close]; not [open]. *)
Definition automatic {Env Res : Type} (classes : list string)
    (a : Action Env Res) : Prop :=
  match a with
  | DoCall func _ _ => raises_only classes func
  | DoOpen _ => False
  | DoClose => True
  end.

(** The clock reading an action hands to [open], if it has one. *)
Definition open_reading {Env Res : Type} (a : Action Env Res) : option Z :=
  match a with
  | DoCall _ _ t_after => Some t_after
  | DoOpen utcnow => Some utcnow
  | DoClose => None
  end.

(** [CircuitBreaker()] constructed at time 0: no name yet. *)
Definition unnamed_breaker : CircuitBreaker :=
  mkCircuitBreaker default_expected_exception 0 default_failure_threshold
    default_recover_timeout STATE_CLOSED 0 None.

(** A store of two breaker objects that carry the same name: object 1 has
    tripped, object 2 is fresh. *)
Definition two_breakers : Store :=
  <[ 1%positive := tripped_breaker ]> {[ 2%positive := fresh_breaker ]}.

(** A store with one breaker object, not named yet. *)
Definition unnamed_store : Store := {[ 1%positive := unnamed_breaker ]}.

(** ** The range of [datetime] and the gating check with its overflow *)

(** [datetime.min] is 0001-01-01 00:00:00 and [datetime.max] is
    9999-12-31 23:59:59.999999, in microseconds since the epoch (719162 days
    before it, 2932896 days and 86399.999999 s after it). *)
Definition datetime_min : Z := -62135596800000000.
Definition datetime_max : Z := 253402300799999999.

(** The microsecond count is that of a [datetime] object. *)
Definition is_datetime (t : Z) : Prop := datetime_min <= t <= datetime_max.

Definition OverflowError (msg : string) : Exn :=
  mkExn ["OverflowError"; "ArithmeticError"; "Exception"; "BaseException";
         "object"] msg.

(** [timedelta(seconds=n)] for an integer [n], in microseconds: the number of
    whole days must have magnitude at most 999999999. *)
Definition timedelta (seconds : Z) : Outcome Z Exn :=
  if Z.abs (seconds / 86400) <=? 999999999
  then Return (1000000 * seconds)
  else Raise (OverflowError "days; must have magnitude <= 999999999").

(** [d + delta] on a [datetime] and a [timedelta]: the result must be a
    [datetime]. *)
Definition datetime_add (d delta : Z) : Outcome Z Exn :=
  if (datetime_min <=? d + delta) && (d + delta <=? datetime_max)
  then Return (d + delta)
  else Raise (OverflowError "date value out of range").

(** [open_until] as the source evaluates it. *)
Definition open_until_checked (self : CircuitBreaker) : Outcome Z Exn :=
  do delta <- timedelta (_recover_timeout self);
  datetime_add (_opened self) delta.

(** [open_remaining] as the source evaluates it; the difference of two
    [datetime]s always exists. *)
Definition open_remaining_checked (self : CircuitBreaker) (utcnow : Z)
    : Outcome Z Exn :=
  do until <- open_until_checked self;
  Return (until - utcnow).

(** [__is_closed] as the source evaluates it: when the state is open the
    property [open_remaining] is read, and an exception it raises leaves the
    method before anything is assigned. *)
Definition __is_closed_checked (self : CircuitBreaker) (utcnow : Z)
    : Outcome (bool * CircuitBreaker) Exn :=
  if bool_decide (_state self = STATE_OPEN)
  then
    do remaining <- open_remaining_checked self utcnow;
    Return (if remaining <=? 0
            then (true, set_state self STATE_HALF_OPEN)
            else (bool_decide (_state self = STATE_CLOSED), self))
  else Return (bool_decide (_state self = STATE_CLOSED), self).

(** [call] as the source evaluates it.  The gating check runs before the
    [try] statement: [Raise e] is [call] raising [e] out of the gating check,
    with the function not invoked and the breaker and the environment as
    they were. *)
Definition call_checked {Env Res : Type} (self : CircuitBreaker)
    (func : Func Env Res) (env : Env) (t_gate t_after : Z)
    : Outcome (CallResult Res * CircuitBreaker * Env) Exn :=
  do gate <- __is_closed_checked self t_gate;
  Return (if negb gate.1
          then (Rejected (CircuitBreakerError_init gate.2), gate.2, env)
          else guarded gate.2 (func gate.2 env) t_after).

(** * Properties *)

(** ** The gating check, case by case *)

Lemma is_closed_when_closed (self : CircuitBreaker) (utcnow : Z) :
  state self = STATE_CLOSED -> __is_closed self utcnow = (true, self).
Proof.
  unfold state, __is_closed. intros ->. reflexivity.
Qed.

Lemma is_closed_when_half_open (self : CircuitBreaker) (utcnow : Z) :
  state self = STATE_HALF_OPEN -> __is_closed self utcnow = (false, self).
Proof.
  unfold state, __is_closed. intros ->. reflexivity.
Qed.

Lemma is_closed_when_open_early (self : CircuitBreaker) (utcnow : Z) :
  state self = STATE_OPEN -> utcnow < open_until self ->
  __is_closed self utcnow = (false, self).
Proof.
  unfold state, __is_closed, open_remaining. intros -> Hlt.
  rewrite bool_decide_eq_true_2 by reflexivity. simpl.
  destruct (Z.leb_spec (open_until self - utcnow) 0); [lia | reflexivity].
Qed.

Lemma is_closed_when_open_late (self : CircuitBreaker) (utcnow : Z) :
  state self = STATE_OPEN -> open_until self <= utcnow ->
  __is_closed self utcnow = (true, set_state self STATE_HALF_OPEN).
Proof.
  unfold state, __is_closed, open_remaining. intros -> Hle.
  rewrite bool_decide_eq_true_2 by reflexivity. simpl.
  destruct (Z.leb_spec (open_until self - utcnow) 0); [reflexivity | lia].
Qed.

(** The gating check lets a call through only from [STATE_CLOSED], or from
    [STATE_OPEN] once the recovery time is over. *)
Lemma is_closed_true_inv (self : CircuitBreaker) (utcnow : Z) :
  (__is_closed self utcnow).1 = true ->
  (state self = STATE_CLOSED /\ (__is_closed self utcnow).2 = self) \/
  (state self = STATE_OPEN /\ open_until self <= utcnow /\
   (__is_closed self utcnow).2 = set_state self STATE_HALF_OPEN).
Proof.
  destruct (state self) eqn:Hs.
  - rewrite is_closed_when_closed by assumption. auto.
  - destruct (Z.lt_ge_cases utcnow (open_until self)) as [Hlt|Hge].
    + rewrite is_closed_when_open_early by assumption. discriminate.
    + rewrite is_closed_when_open_late by assumption. auto.
  - rewrite is_closed_when_half_open by assumption. discriminate.
Qed.

(** ** What [__failure] does to each field *)

Lemma failure_spec (self : CircuitBreaker) (utcnow : Z) :
  failure_count (__failure self utcnow) = failure_count self + 1 /\
  (_failure_threshold self <= failure_count self + 1 ->
     state (__failure self utcnow) = STATE_OPEN /\
     _opened (__failure self utcnow) = utcnow) /\
  (failure_count self + 1 < _failure_threshold self ->
     state (__failure self utcnow) = state self /\
     _opened (__failure self utcnow) = _opened self).
Proof.
  unfold __failure, failure_count, state. simpl.
  destruct (Z.geb_spec (_failure_count self + 1) (_failure_threshold self));
    simpl; repeat split; intros; try lia; reflexivity.
Qed.

Lemma failure_config (self : CircuitBreaker) (utcnow : Z) :
  _expected_exception (__failure self utcnow) = _expected_exception self /\
  _failure_threshold (__failure self utcnow) = _failure_threshold self /\
  _recover_timeout (__failure self utcnow) = _recover_timeout self /\
  _name (__failure self utcnow) = _name self.
Proof.
  unfold __failure. simpl.
  destruct (_failure_count self + 1 >=? _failure_threshold self); auto.
Qed.

(** ** The gating check with its overflow *)

Lemma timedelta_in_range (d seconds : Z) :
  is_datetime d -> is_datetime (d + 1000000 * seconds) ->
  timedelta seconds = Return (1000000 * seconds).
Proof.
  unfold is_datetime, datetime_min, datetime_max, timedelta.
  intros Hd Hsum.
  destruct (Z.leb_spec (Z.abs (seconds / 86400)) 999999999) as [_|Hbig];
    [reflexivity|].
  exfalso.
  assert (Hlo : -400000000000 <= seconds) by lia.
  assert (Hhi : seconds <= 400000000000) by lia.
  assert (H1 : -400000000000 / 86400 <= seconds / 86400)
    by (apply Z.div_le_mono; lia).
  assert (H2 : seconds / 86400 <= 400000000000 / 86400)
    by (apply Z.div_le_mono; lia).
  change (-400000000000 / 86400) with (-4629630) in H1.
  change (400000000000 / 86400) with 4629629 in H2.
  lia.
Qed.

(** Within the range of [datetime] the source's [open_until] has a value,
    and it is [open_until]. *)
Lemma open_until_checked_in_range (self : CircuitBreaker) :
  is_datetime (_opened self) -> is_datetime (open_until self) ->
  open_until_checked self = Return (open_until self).
Proof.
  unfold open_until, open_until_checked. intros Hd Hsum.
  rewrite (timedelta_in_range (_opened self)) by assumption. simpl.
  unfold datetime_add. unfold is_datetime in Hsum.
  destruct (Z.leb_spec datetime_min
              (_opened self + 1000000 * _recover_timeout self)); [|lia].
  destruct (Z.leb_spec (_opened self + 1000000 * _recover_timeout self)
              datetime_max); [reflexivity | lia].
Qed.


(** A breaker that is not open, or whose opening time and open-until time
    are [datetime]s, passes through the gating check without an exception,
    and the check does what [__is_closed] says. *)
Lemma is_closed_checked_in_range (self : CircuitBreaker) (utcnow : Z) :
  (state self = STATE_OPEN ->
   is_datetime (_opened self) /\ is_datetime (open_until self)) ->
  __is_closed_checked self utcnow = Return (__is_closed self utcnow).
Proof.
  unfold state, __is_closed_checked, __is_closed, open_remaining_checked,
    open_remaining.
  intros Hrange.
  destruct (bool_decide (_state self = STATE_OPEN)) eqn:Ho; [|reflexivity].
  apply bool_decide_eq_true_1 in Ho. destruct (Hrange Ho) as [Hd Hu].
  rewrite (open_until_checked_in_range self Hd Hu). simpl.
  destruct (open_until self - utcnow <=? 0); reflexivity.
Qed.

(** ** Calls through the breaker *)

Section CallProperties.
Context {Env Res : Type}.
Implicit Types (self : CircuitBreaker) (func : Func Env Res) (env : Env).

Lemma calls_length self env (l : list (Func Env Res * Z * Z)) :
  length (calls self env l).1.1 = length l.
Proof.
  revert self env.
  induction l as [|[[func t_gate] t_after] l IH]; intros self env; simpl.
  - reflexivity.
  - destruct (call self func env t_gate t_after) as [[r self1] env1].
    specialize (IH self1 env1).
    destruct (calls self1 env1 l) as [[rs self2] env2]. simpl in *.
    congruence.
Qed.

Lemma call_when_half_open self func env (t_gate t_after : Z) :
  state self = STATE_HALF_OPEN ->
  call self func env t_gate t_after
  = (Rejected (CircuitBreakerError_init self), self, env).
Proof.
  intros Hs. unfold call. rewrite is_closed_when_half_open by exact Hs.
  reflexivity.
Qed.

Lemma call_when_closed self func env (t_gate t_after : Z) :
  state self = STATE_CLOSED ->
  call self func env t_gate t_after = guarded self (func self env) t_after.
Proof.
  intros Hs. unfold call. rewrite is_closed_when_closed by exact Hs.
  reflexivity.
Qed.

(** Under the same condition [call] raises nothing out of the gating check
    and does what [call] says. *)
Lemma call_checked_in_range self func env (t_gate t_after : Z) :
  (state self = STATE_OPEN ->
   is_datetime (_opened self) /\ is_datetime (open_until self)) ->
  call_checked self func env t_gate t_after
  = Return (call self func env t_gate t_after).
Proof.
  intros Hrange. unfold call_checked, call.
  rewrite (is_closed_checked_in_range self t_gate Hrange). simpl.
  destruct (__is_closed self t_gate) as [ok gated]. simpl.
  destruct ok; reflexivity.
Qed.

(** C2.  Take an open breaker whose opening time and open-until time
    [_opened + recover_timeout] are [datetime]s.  While the clock reads less
    than the open-until time, [call] raises [CircuitBreakerError]; the
    result does not depend on the wrapped function, whose environment is
    left as it was (it is not invoked), and the breaker is returned as it
    was: state, failure count and opening time are unchanged. *)
Theorem call_rejected_while_open self func env (t_gate t_after : Z) :
  state self = STATE_OPEN ->
  is_datetime (_opened self) ->
  is_datetime (_opened self + 1000000 * _recover_timeout self) ->
  t_gate < _opened self + 1000000 * _recover_timeout self ->
  call_checked self func env t_gate t_after
  = Return (Rejected (CircuitBreakerError_init self), self, env).
Proof.
  intros Hs Hd Hu Hlt. rewrite call_checked_in_range by (intros _; auto).
  unfold call. rewrite is_closed_when_open_early by assumption. reflexivity.
Qed.

(** C3.  Take an open breaker whose opening time and open-until time
    [_opened + recover_timeout] are [datetime]s.  When the clock has reached
    the open-until time, [call] first sets the state to [STATE_HALF_OPEN]
    and then invokes the wrapped function: the function runs against the
    breaker in that state, its effect on the environment is the call's, and
    the call is not rejected. *)
Theorem call_trial_after_timeout self func env (t_gate t_after : Z) :
  state self = STATE_OPEN ->
  is_datetime (_opened self) ->
  is_datetime (_opened self + 1000000 * _recover_timeout self) ->
  _opened self + 1000000 * _recover_timeout self <= t_gate ->
  let trial := set_state self STATE_HALF_OPEN in
  state trial = STATE_HALF_OPEN /\
  call_checked self func env t_gate t_after
  = Return (guarded trial (func trial env) t_after) /\
  (guarded trial (func trial env) t_after).2 = (func trial env).2 /\
  (forall err,
     (guarded trial (func trial env) t_after).1.1 <> Rejected err).
Proof.
  intros Hs Hd Hu Hge trial.
  split; [reflexivity|]. split.
  - rewrite call_checked_in_range by (intros _; auto).
    unfold call. rewrite is_closed_when_open_late by assumption.
    reflexivity.
  - unfold guarded. destruct (func trial env) as [[result|e] env'].
    + split; [reflexivity | discriminate].
    + destruct (isinstance e (_expected_exception trial));
        (split; [reflexivity | discriminate]).
Qed.

(** C1, as amended.  A trial call (open breaker, recovery time over) whose
    function raises an expected exception propagates it and adds one to the
    failure count; the breaker goes back to [STATE_OPEN] with the opening
    time set to the clock reading when the new count has reached the
    threshold, which is the case whenever the old count already had; below
    the threshold it stays in [STATE_HALF_OPEN] with the opening time
    untouched. *)
Theorem trial_failure_reopens_at_threshold self func env (t_gate t_after : Z) (e : Exn) env' :
  state self = STATE_OPEN ->
  open_until self <= t_gate ->
  func (set_state self STATE_HALF_OPEN) env = (Raise e, env') ->
  isinstance e (_expected_exception self) = true ->
  exists self',
    call self func env t_gate t_after = (Propagated e, self', env') /\
    failure_count self' = failure_count self + 1 /\
    (_failure_threshold self <= failure_count self + 1 ->
       state self' = STATE_OPEN /\ _opened self' = t_after) /\
    (_failure_threshold self <= failure_count self ->
       state self' = STATE_OPEN /\ _opened self' = t_after) /\
    (failure_count self + 1 < _failure_threshold self ->
       state self' = STATE_HALF_OPEN /\ _opened self' = _opened self).
Proof.
  intros Hs Hge Hrun Hexp.
  exists (__failure (set_state self STATE_HALF_OPEN) t_after).
  split.
  - unfold call. rewrite is_closed_when_open_late by assumption.
    rewrite Hrun. simpl. rewrite Hexp. reflexivity.
  - destruct (failure_spec (set_state self STATE_HALF_OPEN) t_after)
      as (Hc & Hopen & Hstay).
    split; [exact Hc|]. split; [exact Hopen|]. split.
    + intros Hthr. apply Hopen. unfold failure_count in *. simpl in *. lia.
    + exact Hstay.
Qed.

(** On a closed breaker, a call that ends in a classified failure has run
    [__failure]. *)
Lemma call_failure_when_closed self func env (t_gate t_after : Z) :
  state self = STATE_CLOSED ->
  classified_failure (_expected_exception self)
    (call self func env t_gate t_after).1.1 ->
  (call self func env t_gate t_after).1.2 = __failure self t_after.
Proof.
  intros Hs. rewrite call_when_closed by exact Hs. unfold guarded.
  destruct (func self env) as [[result|e] env1].
  - intros (e' & Hr & _). discriminate Hr.
  - destruct (isinstance e (_expected_exception self)) eqn:Hexp.
    + reflexivity.
    + intros (e' & Hr & Hexp'). simpl in Hr. injection Hr as <-. congruence.
Qed.

(** Failures counted on a closed breaker, whatever the count it starts from:
    the general form of the threshold rule, by induction on the run. *)
Lemma failures_from_count (l : list (Func Env Res * Z * Z)) :
  forall self env,
  state self = STATE_CLOSED ->
  failure_count self + Z.of_nat (length l) <= _failure_threshold self ->
  Forall (classified_failure (_expected_exception self))
    (calls self env l).1.1 ->
  let self' := (calls self env l).1.2 in
  failure_count self' = failure_count self + Z.of_nat (length l) /\
  (failure_count self + Z.of_nat (length l) < _failure_threshold self ->
     state self' = STATE_CLOSED /\ _opened self' = _opened self) /\
  (l <> [] ->
   failure_count self + Z.of_nat (length l) = _failure_threshold self ->
     state self' = STATE_OPEN /\
     forall c, last l = Some c -> _opened self' = c.2).
Proof.
  induction l as [|[[func t_gate] t_after] l IH]; intros self env Hs Hle Hall.
  - simpl. split; [lia|]. split; [auto|]. intros Hne. contradiction.
  - pose proof (call_failure_when_closed self func env t_gate t_after Hs)
      as Hcall.
    cbn [calls] in *.
    destruct (call self func env t_gate t_after) as [[r self1] env1].
    specialize (IH self1 env1).
    destruct (calls self1 env1 l) as [[rs self2] env2] eqn:Hrun.
    simpl in *. apply Forall_cons in Hall. destruct Hall as [Hr Hrs].
    specialize (Hcall Hr). subst self1.
    destruct (failure_spec self t_after) as (Hc & Hopen & Hstay).
    destruct (failure_config self t_after) as (Hexc & Hthr & _ & _).
    destruct l as [|c l].
    + simpl in Hrun. injection Hrun as <- <- <-. simpl length in *.
      split; [exact Hc|]. split.
      * intros Hlt. apply Hstay in Hlt. destruct Hlt as [-> ->]. auto.
      * intros _ Heq. split; [apply Hopen; lia|].
        intros c [= <-]. simpl. apply Hopen. lia.
    + assert (Hlt : failure_count self + 1 < _failure_threshold self).
      { simpl length in Hle. lia. }
      destruct (Hstay Hlt) as [Hs1 Ho1].
      destruct IH as (Hcnt & Hbelow & Hat).
      * rewrite Hs1. exact Hs.
      * rewrite Hc, Hthr. simpl length in *. lia.
      * rewrite Hexc. exact Hrs.
      * split; [rewrite Hcnt, Hc; simpl length; lia|]. split.
        -- intros Hlt'. destruct Hbelow as [-> ->].
           ++ rewrite Hc, Hthr. simpl length in *. lia.
           ++ auto.
        -- intros _ Heq. apply Hat; [discriminate|].
           rewrite Hc, Hthr. simpl length in *. lia.
Qed.

(** C8.  Take a closed breaker with no failure recorded and a positive
    threshold, and a run of at most [_failure_threshold] calls each of which
    ends in a classified failure.  Every failure is counted.  While fewer
    than [_failure_threshold] calls have failed the breaker is still closed;
    when exactly [_failure_threshold] have, it is open and its opening time
    is the clock reading taken at the last failure. *)
Theorem threshold_failures_open self env (l : list (Func Env Res * Z * Z)) :
  state self = STATE_CLOSED ->
  failure_count self = 0 ->
  0 < _failure_threshold self ->
  Z.of_nat (length l) <= _failure_threshold self ->
  Forall (classified_failure (_expected_exception self))
    (calls self env l).1.1 ->
  let self' := (calls self env l).1.2 in
  failure_count self' = Z.of_nat (length l) /\
  (Z.of_nat (length l) < _failure_threshold self ->
     state self' = STATE_CLOSED) /\
  (Z.of_nat (length l) = _failure_threshold self ->
     state self' = STATE_OPEN /\
     forall c, last l = Some c -> _opened self' = c.2).
Proof.
  intros Hs H0 Hpos Hle Hall self'.
  destruct (failures_from_count l self env Hs) as (Hcnt & Hbelow & Hat);
    [lia | exact Hall |].
  fold self' in Hcnt, Hbelow, Hat. rewrite H0 in *.
  split; [lia|]. split.
  - intros Hlt. apply Hbelow. lia.
  - intros Heq. apply Hat; [|lia].
    intros ->. simpl in Heq. lia.
Qed.

(** A breaker in [STATE_HALF_OPEN] rejects every call of a run, whatever the
    clock readings, and comes out of the run as it went in. *)
Lemma calls_when_half_open self env (l : list (Func Env Res * Z * Z)) :
  state self = STATE_HALF_OPEN ->
  calls self env l
  = (map (fun _ => Rejected (CircuitBreakerError_init self)) l, self, env).
Proof.
  intros Hs. induction l as [|[[func t_gate] t_after] l IH]; simpl.
  - reflexivity.
  - rewrite call_when_half_open by exact Hs. rewrite IH. reflexivity.
Qed.

(** C10.  A breaker that is in [STATE_HALF_OPEN] when [call] starts rejects
    that call and every later one with [CircuitBreakerError]: the wrapped
    functions are not invoked (the environment is unchanged), and the
    breaker stays in [STATE_HALF_OPEN], unchanged, whatever the clock
    reads. *)
Theorem half_open_is_stuck self env (l : list (Func Env Res * Z * Z)) :
  state self = STATE_HALF_OPEN ->
  let '(results, self', env') := calls self env l in
  Forall (fun r => r = Rejected (CircuitBreakerError_init self)) results /\
  length results = length l /\
  self' = self /\ state self' = STATE_HALF_OPEN /\ env' = env.
Proof.
  intros Hs. rewrite calls_when_half_open by exact Hs.
  split; [|split; [apply length_map | auto]].
  induction l as [|x l IH]; simpl; constructor; [reflexivity | exact IH].
Qed.
(** C6, as amended.  When the wrapped function is invoked and raises an
    exception the breaker does not expect, [call] lets that exception
    through as it is, and leaves the failure count and the opening time
    alone.  The breaker is left in the state the gating check put it in:
    a closed breaker is unchanged, an open breaker whose recovery time was
    over is left in [STATE_HALF_OPEN]. *)
Theorem unexpected_exception_passes self func env (t_gate t_after : Z)
    (e : Exn) env' :
  (__is_closed self t_gate).1 = true ->
  func (__is_closed self t_gate).2 env = (Raise e, env') ->
  isinstance e (_expected_exception self) = false ->
  exists self',
    call self func env t_gate t_after = (Propagated e, self', env') /\
    failure_count self' = failure_count self /\
    _opened self' = _opened self /\
    (state self = STATE_CLOSED -> self' = self) /\
    (state self = STATE_OPEN ->
       self' = set_state self STATE_HALF_OPEN /\
       state self' = STATE_HALF_OPEN).
Proof.
  intros Hok Hrun Hexp. exists (__is_closed self t_gate).2.
  assert (Hcfg : _expected_exception (__is_closed self t_gate).2
                 = _expected_exception self).
  { destruct (is_closed_true_inv self t_gate Hok) as [[_ ->]|(_ & _ & ->)];
      reflexivity. }
  split.
  - unfold call. destruct (__is_closed self t_gate) as [ok gated].
    simpl in *. subst ok. simpl. rewrite Hrun. simpl.
    rewrite Hcfg, Hexp. reflexivity.
  - destruct (is_closed_true_inv self t_gate Hok)
      as [[Hs ->]|(Hs & _ & ->)].
    + split; [reflexivity|]. split; [reflexivity|].
      split; [reflexivity|]. intros Ho. rewrite Hs in Ho. discriminate.
    + split; [reflexivity|]. split; [reflexivity|]. split.
      * intros Hc. rewrite Hs in Hc. discriminate.
      * intros _. split; reflexivity.
Qed.

(** Every action either closes the breaker with the count at zero, or keeps
    the count, or adds one to it. *)
Lemma perform_count self env (a : Action Env Res) :
  let self' := (perform self env a).1 in
  (state self' = STATE_CLOSED /\ failure_count self' = 0) \/
  failure_count self' = failure_count self \/
  (failure_count self' = failure_count self + 1 /\
   state self' <> STATE_CLOSED) \/
  (failure_count self' = failure_count self + 1 /\
   state self = STATE_CLOSED).
Proof.
  destruct a as [func t_gate t_after|utcnow|]; simpl.
  - unfold call.
    destruct (__is_closed self t_gate) as [ok gated] eqn:Hgate.
    assert (Hg : gated = self \/
                 (gated = set_state self STATE_HALF_OPEN /\ ok = true /\
                  state self = STATE_OPEN)).
    { unfold __is_closed in Hgate.
      destruct (bool_decide (_state self = STATE_OPEN)) eqn:Ho;
        destruct (open_remaining self t_gate <=? 0);
        simpl in Hgate; inversion Hgate; auto.
      apply bool_decide_eq_true_1 in Ho. auto. }
    destruct ok; simpl.
    + unfold guarded. destruct (func gated env) as [[result|e] env'].
      * left. split; reflexivity.
      * destruct (isinstance e (_expected_exception gated)); simpl.
        -- destruct (failure_spec gated t_after) as (Hc & Hopen & Hstay).
           assert (Hcg : failure_count gated = failure_count self)
             by (destruct Hg as [->|(-> & _)]; reflexivity).
           destruct (Z.lt_ge_cases (failure_count gated + 1)
                       (_failure_threshold gated)) as [Hlt|Hge].
           ++ destruct (Hstay Hlt) as [Hst _].
              destruct Hg as [->|(Hgd & _ & Hso)].
              ** destruct (state self) eqn:Hs.
                 --- right; right; right. auto.
                 --- right; right; left. split; [lia|].
                     rewrite Hst. discriminate.
                 --- right; right; left. split; [lia|].
                     rewrite Hst. discriminate.
              ** right; right; left. split; [lia|].
                 rewrite Hst, Hgd. discriminate.
           ++ destruct (Hopen Hge) as [Hst _].
              right; right; left. split; [lia|]. rewrite Hst. discriminate.
        -- right; left. destruct Hg as [->|(-> & _)]; reflexivity.
    + right; left. destruct Hg as [->|(-> & _)]; reflexivity.
  - right; left. reflexivity.
  - left. split; reflexivity.
Qed.

(** C7.  The failure count is set back to zero by what closes the breaker
    and by nothing else.  A call that returns, and [close], leave the
    breaker closed with the count at zero; so does any action that takes
    the breaker from another state to [STATE_CLOSED].  An action that
    leaves the breaker in [STATE_OPEN] or [STATE_HALF_OPEN] keeps the count
    or adds one to it; and whenever the count goes down, the breaker is
    closed and the count is zero. *)
Theorem failure_count_reset_only_on_close self env (a : Action Env Res) :
  let self' := (perform self env a).1 in
  (forall func t_gate t_after result,
     a = DoCall func t_gate t_after ->
     (call self func env t_gate t_after).1.1 = Returned result ->
     state self' = STATE_CLOSED /\ failure_count self' = 0) /\
  (a = DoClose -> state self' = STATE_CLOSED /\ failure_count self' = 0) /\
  (state self <> STATE_CLOSED -> state self' = STATE_CLOSED ->
     failure_count self' = 0) /\
  (state self' <> STATE_CLOSED ->
     failure_count self' = failure_count self \/
     failure_count self' = failure_count self + 1) /\
  (failure_count self' < failure_count self ->
     state self' = STATE_CLOSED /\ failure_count self' = 0).
Proof.
  intros self'. pose proof (perform_count self env a) as Hcount.
  fold self' in Hcount.
  split; [|split; [|split; [|split]]].
  - intros func t_gate t_after result -> Hret. subst self'. simpl in *.
    unfold call in *.
    destruct (__is_closed self t_gate) as [[|] gated]; simpl in *;
      [|discriminate].
    unfold guarded in *. destruct (func gated env) as [[r|e] env'].
    + split; reflexivity.
    + destruct (isinstance e (_expected_exception gated)); discriminate.
  - intros ->. split; reflexivity.
  - intros Hfrom Hto.
    destruct Hcount as [[_ H]|[H|[[_ H]|[_ H]]]]; try congruence.
    (* the count is kept: the action touched neither it nor, into
       [STATE_CLOSED], the state *)
    destruct a as [func t_gate t_after|utcnow|]; subst self'; simpl in *.
    + unfold call in *.
      destruct (__is_closed self t_gate) as [ok gated] eqn:Hgate.
      destruct ok; simpl in *.
      * unfold guarded in *. destruct (func gated env) as [[r|e] env'].
        -- reflexivity.
        -- destruct (is_closed_true_inv self t_gate) as [[Hs _]|(_ & _ & Hg)];
             [rewrite Hgate; reflexivity | contradiction |].
           rewrite Hgate in Hg. simpl in Hg. subst gated.
           destruct (isinstance e _); simpl in *.
           ++ unfold __failure, open, state in Hto. simpl in Hto.
              destruct (_ >=? _); simpl in Hto; discriminate.
           ++ discriminate.
      * unfold __is_closed in Hgate.
        destruct (bool_decide (_state self = STATE_OPEN)
                  && (open_remaining self t_gate <=? 0));
          inversion Hgate; subst; contradiction.
    + discriminate.
    + reflexivity.
  - intros Hne.
    destruct Hcount as [[H _]|[H|[[H _]|[H _]]]]; auto. contradiction.
  - intros Hlt.
    destruct Hcount as [H|[H|[[H _]|[H _]]]]; [exact H | lia | lia | lia].
Qed.
End CallProperties.

(** C1: the claim as stated fails.  [CircuitBreaker(name="svc")] (threshold 5,
    timeout 30 s) is opened by hand at time 0 with no failure recorded.  At
    30 s the gating check lets the trial call through in [STATE_HALF_OPEN];
    the function raises [ValueError], which the breaker expects; the count
    becomes 1, below the threshold, and the breaker is left in
    [STATE_HALF_OPEN] with its old opening time instead of being reopened. *)
Lemma trial_failure_below_threshold_stays_half_open :
  let b := open fresh_breaker 0 in
  state b = STATE_OPEN /\
  isinstance (ValueError "boom") (_expected_exception b) = true /\
  exists b',
    call b failing_stub [] 30000000 30000001
    = (Propagated (ValueError "boom"), b', [STATE_HALF_OPEN]) /\
    failure_count b' = 1 /\
    state b' = STATE_HALF_OPEN /\ state b' <> STATE_OPEN /\
    _opened b' = 0 /\ _opened b' <> 30000001.
Proof.
  simpl. split; [reflexivity|]. split; [reflexivity|].
  eexists. split; [vm_compute; reflexivity|].
  vm_compute. repeat split; discriminate.
Qed.

Lemma trial_failure_reopens_at_threshold_witness :
  exists self',
    call (open (set_failure_count small_breaker 3) 0) failing_stub []
      10000000 10000001
    = (Propagated (ValueError "boom"), self', [STATE_HALF_OPEN]) /\
    failure_count self' = 4 /\
    state self' = STATE_OPEN /\ _opened self' = 10000001.
Proof.
  destruct (trial_failure_reopens_at_threshold (open (set_failure_count small_breaker 3) 0)
              failing_stub [] 10000000 10000001 (ValueError "boom")
              [STATE_HALF_OPEN])
    as (self' & Hcall & Hc & Hopen & _ & _);
    [reflexivity | vm_compute; discriminate | reflexivity | reflexivity |].
  exists self'. split; [exact Hcall|]. split; [exact Hc|].
  apply Hopen. vm_compute. discriminate.
Defined.

Lemma call_rejected_while_open_witness :
  call_checked (open fresh_breaker 0) succeeding_stub [] 29999999 29999999
  = Return (Rejected (CircuitBreakerError_init (open fresh_breaker 0)),
            open fresh_breaker 0, []).
Proof.
  apply call_rejected_while_open.
  - reflexivity.
  - split; vm_compute; discriminate.
  - split; vm_compute; discriminate.
  - reflexivity.
Defined.

Lemma call_trial_after_timeout_witness :
  call_checked (open fresh_breaker 0) succeeding_stub [] 30000000 30000000
  = Return (Returned tt, close (open fresh_breaker 0), [STATE_HALF_OPEN]).
Proof.
  destruct (call_trial_after_timeout (open fresh_breaker 0) succeeding_stub
              [] 30000000 30000000) as (_ & Hcall & _).
  - reflexivity.
  - split; vm_compute; discriminate.
  - split; vm_compute; discriminate.
  - vm_compute. discriminate.
  - rewrite Hcall. reflexivity.
Defined.

(** The stuck state is reached from a fresh breaker: open it by hand, wait
    for the recovery time, let the trial call fail. *)
Lemma half_open_is_stuck_witness :
  let stuck := (perform_all fresh_breaker []
                  [DoOpen 0; DoCall failing_stub 30000000 30000001]).1 in
  state stuck = STATE_HALF_OPEN /\
  calls stuck [STATE_HALF_OPEN]
    [(succeeding_stub, 30000002, 30000003);
     (succeeding_stub, 999999999999, 999999999999)]
  = ([Rejected (CircuitBreakerError_init stuck);
      Rejected (CircuitBreakerError_init stuck)], stuck, [STATE_HALF_OPEN]).
Proof.
  intros stuck. split; [reflexivity|].
  pose proof (half_open_is_stuck stuck [STATE_HALF_OPEN]
    [(succeeding_stub, 30000002, 30000003);
     (succeeding_stub, 999999999999, 999999999999)] eq_refl) as H.
  destruct (calls stuck _ _) as [[results self'] env'].
  destruct H as (Hall & Hlen & -> & _ & ->).
  destruct results as [|r1 [|r2 [|r3 results]]]; try discriminate Hlen.
  inversion Hall as [|? ? -> Hall']. inversion Hall' as [|? ? -> _].
  reflexivity.
Defined.

(** C6: the claim as stated fails on the state.  [tripped_breaker] is open
    since 7.000001 s with five failures.  At 40 s the gating check lets the
    trial call through; the function raises [KeyboardInterrupt], which is not
    an [Exception] and so not expected; it passes through, count and opening
    time are kept, but the breaker that was in [STATE_OPEN] before the call is
    in [STATE_HALF_OPEN] after it. *)
Lemma unexpected_exception_leaves_half_open :
  state tripped_breaker = STATE_OPEN /\
  isinstance KeyboardInterrupt (_expected_exception tripped_breaker) = false /\
  exists b',
    call tripped_breaker interrupted_stub [] 40000000 40000001
    = (Propagated KeyboardInterrupt, b', [STATE_HALF_OPEN]) /\
    failure_count b' = failure_count tripped_breaker /\
    _opened b' = _opened tripped_breaker /\
    state b' = STATE_HALF_OPEN /\
    state b' <> state tripped_breaker.
Proof.
  split; [reflexivity|]. split; [reflexivity|].
  eexists. split; [vm_compute; reflexivity|].
  vm_compute. repeat split. discriminate.
Qed.

Lemma unexpected_exception_passes_witness :
  exists self',
    call fresh_breaker interrupted_stub [] 5 6
    = (Propagated KeyboardInterrupt, self', [STATE_CLOSED]) /\
    failure_count self' = 0 /\ _opened self' = 0 /\ self' = fresh_breaker.
Proof.
  destruct (unexpected_exception_passes fresh_breaker interrupted_stub []
              5 6 KeyboardInterrupt [STATE_CLOSED])
    as (self' & Hcall & Hc & Ho & Hclosed & _);
    [reflexivity | reflexivity | reflexivity |].
  exists self'. split; [exact Hcall|]. split; [exact Hc|]. split; [exact Ho|].
  apply Hclosed. reflexivity.
Defined.

Lemma failure_count_reset_only_on_close_witness :
  state tripped_breaker <> STATE_CLOSED /\
  failure_count tripped_breaker = 5 /\
  (let self' := (perform tripped_breaker []
                   (DoCall succeeding_stub 40000000 40000001)).1 in
   state self' = STATE_CLOSED /\ failure_count self' = 0) /\
  (let self' := (perform tripped_breaker [] (DoClose (Env := list State)
                   (Res := unit))).1 in
   state self' = STATE_CLOSED /\ failure_count self' = 0) /\
  (let self' := (perform tripped_breaker []
                   (DoCall failing_stub 40000000 40000001)).1 in
   state self' = STATE_OPEN /\ failure_count self' = 6).
Proof.
  split; [vm_compute; discriminate|]. split; [reflexivity|].
  split; [|split].
  - destruct (failure_count_reset_only_on_close tripped_breaker []
                (DoCall succeeding_stub 40000000 40000001))
      as (Hret & _).
    apply (Hret succeeding_stub 40000000 40000001 tt); reflexivity.
  - destruct (failure_count_reset_only_on_close tripped_breaker []
                (DoClose (Env := list State) (Res := unit)))
      as (_ & Hclose & _).
    apply Hclose. reflexivity.
  - destruct (failure_count_reset_only_on_close tripped_breaker []
                (DoCall failing_stub 40000000 40000001))
      as (_ & _ & _ & Hkeep & _).
    split; [reflexivity|].
    destruct Hkeep as [H|H]; [vm_compute; discriminate | | exact H].
    vm_compute in H. discriminate H.
Defined.

Lemma threshold_failures_open_witness :
  let self' :=
    (calls small_breaker []
       [(failing_stub, 1000000, 1000001); (failing_stub, 2000000, 2000001);
        (failing_stub, 3000000, 3000001)]).1.2 in
  failure_count self' = 3 /\ state self' = STATE_OPEN /\
  _opened self' = 3000001.
Proof.
  destruct (threshold_failures_open small_breaker []
    [(failing_stub, 1000000, 1000001); (failing_stub, 2000000, 2000001);
     (failing_stub, 3000000, 3000001)]) as (Hcnt & _ & Hopen).
  - reflexivity.
  - reflexivity.
  - reflexivity.
  - vm_compute. discriminate.
  - simpl.
    repeat (constructor; [eexists; split; reflexivity|]). constructor.
  - destruct Hopen as [Hs Ho]; [reflexivity|].
    split; [exact Hcnt|]. split; [exact Hs|].
    apply (Ho (failing_stub, 3000000, 3000001)). reflexivity.
Defined.

(** The scenario of the specification: threshold 3, timeout 10 s; three
    failures open the breaker at [t]; a call at [t + 5 s] is rejected; a call
    at [t + 11 s] runs and succeeds, which closes the breaker and zeroes the
    count. *)
Example threshold_3_timeout_10_scenario :
  let '(results, b, log) :=
    calls small_breaker []
      [(failing_stub, 1000000, 1000000); (failing_stub, 2000000, 2000000);
       (failing_stub, 3000000, 3000000); (succeeding_stub, 8000000, 8000000);
       (succeeding_stub, 14000000, 14000000)] in
  results = [Propagated (ValueError "boom"); Propagated (ValueError "boom");
             Propagated (ValueError "boom");
             Rejected (CircuitBreakerError_init
                         (open (set_failure_count small_breaker 3) 3000000));
             Returned tt] /\
  state b = STATE_CLOSED /\ failure_count b = 0 /\
  log = [STATE_CLOSED; STATE_CLOSED; STATE_CLOSED; STATE_HALF_OPEN].
Proof. vm_compute. repeat split. Qed.

(** ** The error raised on rejection *)

(** C4.  The error raised on rejection holds the breaker under
    [_circuit_breaker], so name, opening time, failure count and remaining
    time can be read from it; but rendering its message fails for every
    breaker and every clock reading: the second operand is read from
    [_circuiit_breaker], an attribute the error does not have, and [__str__]
    raises [AttributeError] instead of returning the message. *)
Theorem CircuitBreakerError_str_raises (b : CircuitBreaker) (utcnow : Z) :
  getattr (CircuitBreakerError_init b) "_circuit_breaker" = Return b /\
  CircuitBreakerError_str (CircuitBreakerError_init b) utcnow
  = Raise (AttributeError "_circuiit_breaker").
Proof.
  assert (Hhas : getattr (CircuitBreakerError_init b) "_circuit_breaker"
                 = Return b).
  { unfold getattr, CircuitBreakerError_init. simpl.
    rewrite lookup_singleton_eq. reflexivity. }
  split; [exact Hhas|].
  unfold CircuitBreakerError_str. rewrite Hhas. simpl.
  unfold getattr, CircuitBreakerError_init. simpl.
  rewrite lookup_singleton_ne by discriminate. reflexivity.
Qed.

(** The same on the error of a rejected call. *)
Example rejected_call_message_raises :
  exists err,
    (call tripped_breaker succeeding_stub [] 8000000 8000000).1.1
    = Rejected err /\
    CircuitBreakerError_str err 8000000
    = Raise (AttributeError "_circuiit_breaker").
Proof.
  exists (CircuitBreakerError_init tripped_breaker).
  split; [reflexivity|].
  unfold CircuitBreakerError_str, getattr, CircuitBreakerError_init. simpl.
  rewrite lookup_singleton_eq. simpl.
  rewrite lookup_singleton_ne by discriminate. reflexivity.
Qed.

(** ** Construction *)

(** C5: the claim as stated fails.  A threshold of 0 and a timeout of -30 s
    are both accepted: [__init__] returns a breaker and raises nothing. *)
Lemma init_accepts_non_positive :
  __init__ default_expected_exception 0 default_recover_timeout None 0
  = Return (mkCircuitBreaker default_expected_exception 0 0 30 STATE_CLOSED 0
              None) /\
  __init__ default_expected_exception default_failure_threshold (-30) None 0
  = Return (mkCircuitBreaker default_expected_exception 0 5 (-30)
              STATE_CLOSED 0 None) /\
  (forall e,
     __init__ default_expected_exception 0 default_recover_timeout None 0
     <> Raise e) /\
  (forall e,
     __init__ default_expected_exception default_failure_threshold (-30)
       None 0 <> Raise e).
Proof.
  split; [reflexivity|]. split; [reflexivity|]. split; discriminate.
Qed.

(** C5, as amended.  Construction validates nothing and never fails: whatever
    the threshold and the timeout, non-positive ones included, it returns a
    closed breaker with no failure recorded that holds the values given. *)
Theorem init_never_fails (expected_exception : list string)
    (failure_threshold recover_timeout : Z) (name : option string)
    (utcnow : Z) :
  exists b,
    __init__ expected_exception failure_threshold recover_timeout name utcnow
    = Return b /\
    state b = STATE_CLOSED /\ failure_count b = 0 /\
    _failure_threshold b = failure_threshold /\
    _recover_timeout b = recover_timeout /\
    _expected_exception b = expected_exception /\
    _opened b = utcnow /\ _name b = name.
Proof.
  eexists. split; [reflexivity|]. repeat split.
Qed.

(** ** The monitor *)

Lemma elem_of_get_circuits (circuit_breakers : Registry) (r : ref) :
  In r (get_circuits circuit_breakers) <->
  exists n, circuit_breakers !! n = Some r.
Proof.
  unfold get_circuits. rewrite <- list_elem_of_In, list_elem_of_fmap. split.
  - intros ([n r'] & -> & Hin). exists n.
    apply elem_of_map_to_list in Hin. exact Hin.
  - intros [n Hn]. exists (n, r). split; [reflexivity|].
    apply elem_of_map_to_list. exact Hn.
Qed.

Lemma elem_of_get_open (σ : Store) (circuit_breakers : Registry) (r : ref) :
  In r (get_open σ circuit_breakers) <->
  exists n b,
    circuit_breakers !! n = Some r /\ σ !! r = Some b /\ state b = STATE_OPEN.
Proof.
  unfold get_open. rewrite filter_In, elem_of_get_circuits. unfold is_open.
  split.
  - intros [[n Hn] Hopen]. destruct (σ !! r) as [b|]; [|discriminate].
    exists n, b. apply bool_decide_eq_true_1 in Hopen. auto.
  - intros (n & b & Hn & -> & Hs). split; [eauto|].
    apply bool_decide_eq_true_2. exact Hs.
Qed.

(** C9.  After [register] of a breaker object, [get] with its name returns
    the reference to that very object, and still does after breakers with
    other names are registered; [register] leaves the object store alone, so
    no copy is made.  [all_closed] is false exactly when some registered
    breaker is, in the current store, in [STATE_OPEN]. *)
Theorem register_get_all_closed (σ : Store) (circuit_breakers : Registry) :
  (forall (r : ref) (b : CircuitBreaker),
     σ !! r = Some b ->
     get (register σ circuit_breakers r) (name b) = Some r) /\
  (forall (r r' : ref) (b b' : CircuitBreaker),
     σ !! r = Some b -> σ !! r' = Some b' -> name b' <> name b ->
     get (register σ (register σ circuit_breakers r) r') (name b) = Some r) /\
  (all_closed σ circuit_breakers = false <->
   exists n r b,
     get circuit_breakers n = Some r /\ σ !! r = Some b /\
     state b = STATE_OPEN).
Proof.
  split; [|split].
  - intros r b Hr. unfold get, register. rewrite Hr.
    apply lookup_insert_eq.
  - intros r r' b b' Hr Hr' Hne. unfold get, register. rewrite Hr, Hr'.
    rewrite lookup_insert_ne by exact Hne. apply lookup_insert_eq.
  - unfold all_closed, get. split.
    + destruct (get_open σ circuit_breakers) as [|r l] eqn:Hopen;
        [discriminate|].
      intros _. assert (Hin : In r (get_open σ circuit_breakers)).
      { rewrite Hopen. left. reflexivity. }
      apply elem_of_get_open in Hin. destruct Hin as (n & b & H).
      exists n, r, b. exact H.
    + intros (n & r & b & H).
      assert (Hin : In r (get_open σ circuit_breakers)).
      { apply elem_of_get_open. exists n, b. exact H. }
      destruct (get_open σ circuit_breakers); [destruct Hin | reflexivity].
Qed.

Lemma register_get_all_closed_witness :
  let σ : Store := {[ 1%positive := tripped_breaker ]} in
  let reg : Registry := register σ ∅ 1%positive in
  get reg (Some "svc") = Some 1%positive /\ all_closed σ reg = false.
Proof.
  intros σ reg.
  destruct (register_get_all_closed σ ∅) as (Hget & _ & _).
  destruct (register_get_all_closed σ reg) as (_ & _ & Hall).
  split.
  - apply (Hget 1%positive tripped_breaker). reflexivity.
  - apply Hall. exists (Some "svc"), 1%positive, tripped_breaker.
    split; [reflexivity|]. split; reflexivity.
Defined.

(** The registry sees a breaker through its reference: tripping the
    registered object changes the answer of [all_closed]. *)
Example monitor_sees_mutation :
  let σ : Store := {[ 1%positive := set_failure_count fresh_breaker 4 ]} in
  let reg : Registry := register σ ∅ 1%positive in
  all_closed σ reg = true /\
  exists r σ' log,
    call_at σ 1%positive failing_stub [] 1000000 1000001 = Some (r, σ', log) /\
    all_closed σ' reg = false /\ get reg (Some "svc") = Some 1%positive.
Proof.
  intros σ reg. split; [reflexivity|].
  eexists _, _, _. split; [reflexivity|]. split; reflexivity.
Qed.

(** * Further properties of the breaker *)

Section BreakerProperties.
Context {Env Res : Type}.
Implicit Types (self : CircuitBreaker) (func : Func Env Res) (env : Env).

(** The three ways a call can go, by the state it starts in. *)
Lemma call_cases self func env (t_gate t_after : Z) :
  ((state self = STATE_HALF_OPEN \/
    (state self = STATE_OPEN /\ t_gate < open_until self)) /\
   call self func env t_gate t_after
   = (Rejected (CircuitBreakerError_init self), self, env)) \/
  (state self = STATE_CLOSED /\
   __is_closed self t_gate = (true, self) /\
   call self func env t_gate t_after = guarded self (func self env) t_after) \/
  (state self = STATE_OPEN /\ open_until self <= t_gate /\
   __is_closed self t_gate = (true, set_state self STATE_HALF_OPEN) /\
   call self func env t_gate t_after
   = guarded (set_state self STATE_HALF_OPEN)
       (func (set_state self STATE_HALF_OPEN) env) t_after).
Proof.
  unfold call. destruct (state self) eqn:Hs.
  - right; left. rewrite is_closed_when_closed by exact Hs. auto.
  - destruct (Z.lt_ge_cases t_gate (open_until self)) as [Hlt|Hge].
    + left. rewrite is_closed_when_open_early by assumption. auto.
    + right; right. rewrite is_closed_when_open_late by assumption. auto.
  - left. rewrite is_closed_when_half_open by exact Hs. auto.
Qed.

Lemma guarded_not_rejected self (ran : Outcome Res Exn * Env) (utcnow : Z)
    (err : CircuitBreakerError) :
  (guarded self ran utcnow).1.1 <> Rejected err.
Proof.
  unfold guarded. destruct ran as [[result|e] env'].
  - discriminate.
  - destruct (isinstance e (_expected_exception self)); discriminate.
Qed.

(** X1.  Take a breaker that is not open, or whose opening time and
    open-until time are [datetime]s.  The gating check of [call] rejects the
    call, raising [CircuitBreakerError(self)] before the function is
    invoked, exactly when the breaker is half open, or open with recovery
    time remaining; and a rejected call changes nothing: the breaker and the
    environment are as before, and the error holds that breaker.  (A
    [CircuitBreakerError] that the function itself raises is the function's
    exception passing through, not a rejection.) *)
Theorem call_rejects_iff self func env (t_gate t_after : Z) :
  (state self = STATE_OPEN ->
   is_datetime (_opened self) /\ is_datetime (open_until self)) ->
  exists out,
    call_checked self func env t_gate t_after = Return out /\
    ((exists err, out.1.1 = Rejected err) <->
     (state self = STATE_HALF_OPEN \/
      (state self = STATE_OPEN /\ 0 < open_remaining self t_gate))) /\
    (forall err,
       out.1.1 = Rejected err ->
       err = CircuitBreakerError_init self /\ out.1.2 = self /\ out.2 = env).
Proof.
  intros Hrange. exists (call self func env t_gate t_after).
  split; [apply call_checked_in_range; exact Hrange|].
  unfold open_remaining.
  destruct (call_cases self func env t_gate t_after)
    as [[Hst ->]|[(Hs & _ & ->)|(Hs & Hge & _ & ->)]].
  - split.
    + split; [intros _|eauto].
      destruct Hst as [?|[? ?]]; [auto | right; split; [assumption | lia]].
    + intros err [= <-]. auto.
  - split.
    + split.
      * intros [err Herr]. destruct (guarded_not_rejected _ _ _ _ Herr).
      * rewrite Hs. intros [?|[? _]]; discriminate.
    + intros err Herr. destruct (guarded_not_rejected _ _ _ _ Herr).
  - split.
    + split.
      * intros [err Herr]. destruct (guarded_not_rejected _ _ _ _ Herr).
      * rewrite Hs. intros [?|[_ ?]]; [discriminate | lia].
    + intros err Herr. destruct (guarded_not_rejected _ _ _ _ Herr).
Qed.

(** X2.  A call that passes the gating check hands the function's outcome to
    the caller as it is: the value it returned or the exception it raised,
    and the environment as the function left it. *)
Theorem call_passes_outcome_through self func env (t_gate t_after : Z) :
  (__is_closed self t_gate).1 = true ->
  let ran := func (__is_closed self t_gate).2 env in
  (call self func env t_gate t_after).2 = ran.2 /\
  (call self func env t_gate t_after).1.1
  = match ran.1 with
    | Return result => Returned result
    | Raise e => Propagated e
    end.
Proof.
  intros Hok ran. subst ran. unfold call.
  destruct (__is_closed self t_gate) as [ok gated]. simpl in Hok. subst ok.
  simpl. unfold guarded. destruct (func gated env) as [[result|e] env'].
  - split; reflexivity.
  - destruct (isinstance e (_expected_exception gated)); split; reflexivity.
Qed.

(** X3.  The [closed] property and the gating check disagree in one state
    only: a breaker reports [closed] and yet rejects the call exactly when it
    is half open. *)
Theorem closed_yet_rejecting_iff_half_open self func env (t_gate t_after : Z) :
  (closed self = true /\
   exists err, (call self func env t_gate t_after).1.1 = Rejected err) <->
  state self = STATE_HALF_OPEN.
Proof.
  unfold closed. split.
  - intros [Hc [err Herr]].
    destruct (call_cases self func env t_gate t_after)
      as [[[Hs|[Hs _]] _]|[(_ & _ & Heq)|(_ & _ & _ & Heq)]].
    + exact Hs.
    + unfold state in Hs. rewrite Hs in Hc. discriminate.
    + rewrite Heq in Herr. destruct (guarded_not_rejected _ _ _ _ Herr).
    + rewrite Heq in Herr. destruct (guarded_not_rejected _ _ _ _ Herr).
  - intros Hs. split.
    + unfold state in Hs. rewrite Hs. reflexivity.
    + rewrite call_when_half_open by exact Hs. eauto.
Qed.

(** What one action leaves alone: the configuration and the name. *)
Lemma perform_config self env (a : Action Env Res) :
  let self' := (perform self env a).1 in
  _expected_exception self' = _expected_exception self /\
  _failure_threshold self' = _failure_threshold self /\
  _recover_timeout self' = _recover_timeout self /\
  _name self' = _name self.
Proof.
  destruct a as [func t_gate t_after|utcnow|]; simpl; [|auto|auto].
  destruct (call_cases self func env t_gate t_after)
    as [[_ ->]|[(_ & _ & ->)|(_ & _ & _ & ->)]]; simpl; [auto| |].
  - unfold guarded. destruct (func self env) as [[result|e] env']; [simpl; auto|].
    destruct (isinstance e (_expected_exception self)); simpl; [|auto].
    apply failure_config.
  - unfold guarded.
    destruct (func (set_state self STATE_HALF_OPEN) env)
      as [[result|e] env']; [simpl; auto|].
    destruct (isinstance e _); simpl; [|auto].
    apply (failure_config (set_state self STATE_HALF_OPEN)).
Qed.

Lemma call_keeps_name self func env (t_gate t_after : Z) :
  name (call self func env t_gate t_after).1.2 = name self.
Proof.
  pose proof (perform_config self env (DoCall func t_gate t_after)) as H.
  simpl in H. destruct (call self func env t_gate t_after) as [[r b] env'].
  apply H.
Qed.

(** X4.  No run of calls, [open]s and [close]s changes what the breaker was
    constructed with: the expected exceptions, the threshold, the recovery
    timeout, and the name it is registered under. *)
Theorem configuration_never_changes self env (l : list (Action Env Res)) :
  let self' := (perform_all self env l).1 in
  _expected_exception self' = _expected_exception self /\
  _failure_threshold self' = _failure_threshold self /\
  _recover_timeout self' = _recover_timeout self /\
  name self' = name self.
Proof.
  unfold name. revert self env.
  induction l as [|a l IH]; intros self env; simpl; [auto|].
  pose proof (perform_config self env a) as Ha.
  destruct (perform self env a) as [self1 env1]. simpl in Ha.
  destruct Ha as (<- & <- & <- & <-). apply IH.
Qed.

(** X5.  The failure count never becomes negative: a count that is not
    negative stays so through any run of calls, [open]s and [close]s. *)
Theorem failure_count_never_negative self env (l : list (Action Env Res)) :
  0 <= failure_count self ->
  0 <= failure_count (perform_all self env l).1.
Proof.
  revert self env. induction l as [|a l IH]; intros self env H0; simpl.
  - exact H0.
  - pose proof (perform_count self env a) as Ha.
    destruct (perform self env a) as [self1 env1]. simpl in Ha.
    apply IH. destruct Ha as [[_ H]|[H|[[H _]|[H _]]]]; lia.
Qed.

(** X6.  The opening time is written by [open] and by nothing else: when an
    action changes it, the breaker is open afterwards and the new opening
    time is the clock reading that action took. *)
Theorem opened_written_only_on_open self env (a : Action Env Res) :
  let self' := (perform self env a).1 in
  _opened self' <> _opened self ->
  state self' = STATE_OPEN /\ open_reading a = Some (_opened self').
Proof.
  destruct a as [func t_gate t_after|utcnow|]; simpl.
  - destruct (call_cases self func env t_gate t_after)
      as [[_ ->]|[(_ & _ & ->)|(_ & _ & _ & ->)]]; simpl.
    + intros H. contradiction.
    + unfold guarded. destruct (func self env) as [[result|e] env'];
        [simpl; intros H; contradiction|].
      destruct (isinstance e (_expected_exception self)); simpl;
        [|intros H; contradiction].
      destruct (failure_spec self t_after) as (_ & Hopen & Hstay).
      destruct (Z.lt_ge_cases (failure_count self + 1)
                  (_failure_threshold self)) as [Hlt|Hge].
      * destruct (Hstay Hlt) as [_ ->]. intros H. contradiction.
      * destruct (Hopen Hge) as [-> ->]. auto.
    + unfold guarded.
      destruct (func (set_state self STATE_HALF_OPEN) env)
        as [[result|e] env']; [simpl; intros H; contradiction|].
      destruct (isinstance e _); simpl; [|intros H; contradiction].
      destruct (failure_spec (set_state self STATE_HALF_OPEN) t_after)
        as (_ & Hopen & Hstay).
      destruct (Z.lt_ge_cases
                  (failure_count (set_state self STATE_HALF_OPEN) + 1)
                  (_failure_threshold (set_state self STATE_HALF_OPEN)))
        as [Hlt|Hge].
      * destruct (Hstay Hlt) as [_ ->]. intros H. contradiction.
      * destruct (Hopen Hge) as [-> ->]. auto.
  - auto.
  - intros H. contradiction.
Qed.

(** X7.  Once the gating check lets a call through at some clock reading, it
    lets a call through at every later one: a call is not rejected at a
    later reading if a call at an earlier reading is not. *)
Theorem admission_is_monotone self func func' env env'
    (t_gate t_after t_gate' t_after' : Z) :
  (forall err, (call self func env t_gate t_after).1.1 <> Rejected err) ->
  t_gate <= t_gate' ->
  forall err, (call self func' env' t_gate' t_after').1.1 <> Rejected err.
Proof.
  intros Hpass Hle err.
  destruct (call_cases self func env t_gate t_after)
    as [[_ Heq]|[(Hs & _ & _)|(Hs & Hge & _ & _)]].
  - exfalso. apply (Hpass (CircuitBreakerError_init self)).
    rewrite Heq. reflexivity.
  - rewrite call_when_closed by exact Hs. apply guarded_not_rejected.
  - unfold call. rewrite is_closed_when_open_late by (assumption || lia).
    apply guarded_not_rejected.
Qed.

(** X8.  A recovery timeout that is zero or negative disables the open
    state: an open breaker, whose opening time and open-until time are
    [datetime]s, rejects no call made at or after the time it was opened,
    and runs it as a trial in [STATE_HALF_OPEN]. *)
Theorem non_positive_timeout_never_rejects self func env
    (t_gate t_after : Z) :
  _recover_timeout self <= 0 ->
  state self = STATE_OPEN ->
  is_datetime (_opened self) ->
  is_datetime (open_until self) ->
  _opened self <= t_gate ->
  let trial := set_state self STATE_HALF_OPEN in
  call_checked self func env t_gate t_after
  = Return (guarded trial (func trial env) t_after) /\
  forall err, (guarded trial (func trial env) t_after).1.1 <> Rejected err.
Proof.
  intros Hto Hs Hd Hu Hle trial. split.
  - rewrite call_checked_in_range by (intros _; auto).
    unfold call. rewrite is_closed_when_open_late; [reflexivity | exact Hs |].
    unfold open_until. lia.
  - intros err. apply guarded_not_rejected.
Qed.

(** X9.  A threshold of one or less opens the breaker at the first failure:
    on a closed breaker whose count is not negative, a call that ends in a
    classified failure leaves the breaker open, with the opening time read
    at that failure. *)
Theorem threshold_at_most_one_opens_at_once self func env
    (t_gate t_after : Z) :
  _failure_threshold self <= 1 ->
  0 <= failure_count self ->
  state self = STATE_CLOSED ->
  classified_failure (_expected_exception self)
    (call self func env t_gate t_after).1.1 ->
  let self' := (call self func env t_gate t_after).1.2 in
  state self' = STATE_OPEN /\ _opened self' = t_after /\
  failure_count self' = failure_count self + 1.
Proof.
  intros Hthr H0 Hs Hfail self'. subst self'.
  rewrite (call_failure_when_closed self func env t_gate t_after Hs Hfail).
  destruct (failure_spec self t_after) as (Hc & Hopen & _).
  destruct Hopen as [Hst Hop]; [lia|]. auto.
Qed.

Lemma close_when_closed_and_zero self :
  state self = STATE_CLOSED -> failure_count self = 0 -> close self = self.
Proof.
  destruct self. unfold state, failure_count, close. simpl.
  intros -> ->. reflexivity.
Qed.

(** A call that returns has run [close], whatever state it started in. *)
Lemma call_returned self func env (t_gate t_after : Z) (result : Res) :
  (call self func env t_gate t_after).1.1 = Returned result ->
  (call self func env t_gate t_after).1.2 = close self.
Proof.
  destruct (call_cases self func env t_gate t_after)
    as [[_ ->]|[(_ & _ & ->)|(_ & _ & _ & ->)]]; simpl.
  - discriminate.
  - unfold guarded. destruct (func self env) as [[r|e] env']; simpl.
    + reflexivity.
    + destruct (isinstance e (_expected_exception self)); discriminate.
  - unfold guarded.
    destruct (func (set_state self STATE_HALF_OPEN) env) as [[r|e] env'];
      simpl.
    + reflexivity.
    + destruct (isinstance e _); discriminate.
Qed.

Lemma calls_config self env (l : list (Func Env Res * Z * Z)) :
  let self' := (calls self env l).1.2 in
  _expected_exception self' = _expected_exception self /\
  _failure_threshold self' = _failure_threshold self /\
  _recover_timeout self' = _recover_timeout self /\
  _name self' = _name self.
Proof.
  revert self env.
  induction l as [|[[func t_gate] t_after] l IH]; intros self env; simpl;
    [auto|].
  pose proof (perform_config self env (DoCall func t_gate t_after)) as Hc.
  simpl in Hc.
  destruct (call self func env t_gate t_after) as [[r self1] env1].
  specialize (IH self1 env1).
  destruct (calls self1 env1 l) as [[rs self2] env2]. simpl in *.
  destruct Hc as (<- & <- & <- & <-). exact IH.
Qed.

(** X10.  Calls that all return leave a closed breaker with no failure
    recorded exactly as it was, however many they are. *)
Theorem successes_leave_closed_breaker_unchanged self env
    (l : list (Func Env Res * Z * Z)) :
  state self = STATE_CLOSED ->
  failure_count self = 0 ->
  Forall (fun r => exists result, r = Returned result)
    (calls self env l).1.1 ->
  (calls self env l).1.2 = self.
Proof.
  intros Hs H0. revert env.
  induction l as [|[[func t_gate] t_after] l IH]; intros env Hall; simpl;
    [reflexivity|].
  simpl in Hall.
  pose proof (call_returned self func env t_gate t_after) as Hret.
  destruct (call self func env t_gate t_after) as [[r self1] env1].
  specialize (IH env1).
  destruct (calls self env1 l) as [[rs self2] env2] eqn:Hrun.
  simpl in Hret.
  assert (Hself1 : self1 = self).
  { destruct (calls self1 env1 l) as [[rs' self2'] env2']. simpl in Hall.
    apply Forall_cons in Hall. destruct Hall as [[result ->] _].
    rewrite (Hret result eq_refl).
    apply close_when_closed_and_zero; assumption. }
  subst self1. rewrite Hrun in *. simpl in *.
  apply Forall_cons in Hall. destruct Hall as [_ Hall]. apply IH. exact Hall.
Qed.

(** X11.  The count is of consecutive failures: after fewer than
    [_failure_threshold] classified failures on a closed breaker with no
    failure recorded, one call that returns puts the breaker back exactly as
    it was before the failures. *)
Theorem success_forgets_failures self env (l : list (Func Env Res * Z * Z))
    func (t_gate t_after : Z) (result : Res) :
  state self = STATE_CLOSED ->
  failure_count self = 0 ->
  Z.of_nat (length l) < _failure_threshold self ->
  Forall (classified_failure (_expected_exception self))
    (calls self env l).1.1 ->
  let self1 := (calls self env l).1.2 in
  let env1 := (calls self env l).2 in
  (call self1 func env1 t_gate t_after).1.1 = Returned result ->
  (call self1 func env1 t_gate t_after).1.2 = self.
Proof.
  intros Hs H0 Hlt Hall self1 env1 Hret.
  rewrite (call_returned _ _ _ _ _ _ Hret).
  destruct (failures_from_count l self env Hs) as (_ & Hbelow & _);
    [lia | exact Hall |].
  destruct Hbelow as [Hs1 Ho1]; [lia|].
  destruct (calls_config self env l) as (He & Ht & Hr & Hn).
  fold self1 in Hs1, Ho1, He, Ht, Hr, Hn.
  clearbody self1. clear Hret.
  destruct self, self1. unfold state, failure_count, close in *.
  simpl in *. subst. reflexivity.
Qed.

(** One automatic action keeps the breaker closed, or open with the count
    at the threshold or above. *)
Lemma perform_automatic self env (a : Action Env Res) :
  (state self = STATE_CLOSED \/
   (state self = STATE_OPEN /\ _failure_threshold self <= failure_count self))
  ->
  automatic (_expected_exception self) a ->
  let self' := (perform self env a).1 in
  state self' = STATE_CLOSED \/
  (state self' = STATE_OPEN /\
   _failure_threshold self' <= failure_count self').
Proof.
  intros Hinv Haut.
  destruct a as [func t_gate t_after|utcnow|]; simpl in *;
    [|contradiction|left; reflexivity].
  destruct (call_cases self func env t_gate t_after)
    as [[_ ->]|[(Hs & _ & ->)|(Hs & _ & _ & ->)]]; simpl.
  - exact Hinv.
  - unfold guarded. destruct (func self env) as [[r|e] env'] eqn:Hrun;
      simpl; [left; reflexivity|].
    rewrite (Haut _ _ _ _ Hrun). simpl.
    destruct (failure_spec self t_after) as (Hc & Hopen & Hstay).
    destruct (failure_config self t_after) as (_ & Hthr & _).
    destruct (Z.lt_ge_cases (failure_count self + 1)
                (_failure_threshold self)) as [Hlt|Hge].
    + left. destruct (Hstay Hlt) as [-> _]. exact Hs.
    + right. destruct (Hopen Hge) as [-> _]. split; [reflexivity | lia].
  - unfold guarded.
    destruct (func (set_state self STATE_HALF_OPEN) env)
      as [[r|e] env'] eqn:Hrun; simpl; [left; reflexivity|].
    change (_expected_exception (set_state self STATE_HALF_OPEN))
      with (_expected_exception self).
    rewrite (Haut _ _ _ _ Hrun). simpl.
    destruct (failure_spec (set_state self STATE_HALF_OPEN) t_after)
      as (Hc & Hopen & _).
    destruct (failure_config (set_state self STATE_HALF_OPEN) t_after)
      as (_ & Hthr & _).
    destruct Hinv as [Hcl|[_ Hge]]; [rewrite Hs in Hcl; discriminate|].
    right. destruct Hopen as [-> _].
    + unfold failure_count in *. simpl in *. lia.
    + split; [reflexivity|]. unfold failure_count in *. simpl in *. lia.
Qed.

(** X12.  Left to its automatic operation, the breaker never stays half
    open.  From a closed breaker, or an open one whose count has reached the
    threshold, any run of [close]s and of calls whose functions raise only
    expected exceptions ends closed, or open with the count at the threshold
    or above; so it is the manual [open] or an unexpected exception that
    leaves a breaker in [STATE_HALF_OPEN]. *)
Theorem automatic_operation_never_sticks self env
    (l : list (Action Env Res)) :
  (state self = STATE_CLOSED \/
   (state self = STATE_OPEN /\ _failure_threshold self <= failure_count self))
  ->
  Forall (automatic (_expected_exception self)) l ->
  let self' := (perform_all self env l).1 in
  state self' <> STATE_HALF_OPEN /\
  (state self' = STATE_CLOSED \/
   (state self' = STATE_OPEN /\
    _failure_threshold self' <= failure_count self')).
Proof.
  intros Hinv Hall self'.
  assert (H : state self' = STATE_CLOSED \/
              (state self' = STATE_OPEN /\
               _failure_threshold self' <= failure_count self')).
  { subst self'. revert self env Hinv Hall.
    induction l as [|a l IH]; intros self env Hinv Hall; simpl.
    - exact Hinv.
    - apply Forall_cons in Hall. destruct Hall as [Ha Hall].
      pose proof (perform_automatic self env a Hinv Ha) as Hinv1.
      pose proof (perform_config self env a) as Hcfg.
      destruct (perform self env a) as [self1 env1]. simpl in *.
      apply IH; [exact Hinv1|].
      destruct Hcfg as (-> & _). exact Hall. }
  split; [|exact H].
  destruct H as [->|[-> _]]; discriminate.
Qed.
End BreakerProperties.

(** * Further properties of the monitor and the decorator *)

Lemma register_lookup (σ : Store) (circuit_breakers : Registry) (r : ref)
    (b : CircuitBreaker) (n : option string) :
  σ !! r = Some b ->
  register σ circuit_breakers r !! n
  = if decide (name b = n) then Some r else circuit_breakers !! n.
Proof.
  intros Hr. unfold register. rewrite Hr. apply lookup_insert.
Qed.

Lemma all_closed_true_iff (σ : Store) (circuit_breakers : Registry) :
  all_closed σ circuit_breakers = true <->
  forall r, ~ In r (get_open σ circuit_breakers).
Proof.
  unfold all_closed. destruct (get_open σ circuit_breakers) as [|r l].
  - split; [intros _ r []|reflexivity].
  - split; [discriminate|]. intros H. destruct (H r). left. reflexivity.
Qed.

Lemma filter_length_split {A : Type} (f : A -> bool) (l : list A) :
  (length (List.filter f l)
   + length (List.filter (fun x => negb (f x)) l))%nat = length l.
Proof.
  induction l as [|x l IH]; simpl; [reflexivity|].
  destruct (f x); simpl; lia.
Qed.

Lemma filter_all {A : Type} (f : A -> bool) (l : list A) :
  List.filter f l = l <-> forall x, In x l -> f x = true.
Proof.
  induction l as [|x l IH]; simpl.
  - split; [intros _ x []|reflexivity].
  - destruct (f x) eqn:Hx.
    + split.
      * intros [= Hl] y [<-|Hy]; [exact Hx|]. apply IH; assumption.
      * intros H. f_equal. apply IH. intros y Hy. apply H. right. exact Hy.
    + split.
      * intros Hl. exfalso.
        assert (Hlen : (length (List.filter f l) <= length l)%nat)
          by apply List.filter_length_le.
        rewrite Hl in Hlen. simpl in Hlen. lia.
      * intros H. specialize (H x (or_introl eq_refl)). congruence.
Qed.

(** X13.  The last registration under a name wins and leaves no trace of the
    one before: the registry is the one obtained by registering the second
    breaker alone, [get] returns the second, other names are untouched, and
    a registry holding only that name reports on the second breaker alone,
    whatever the state of the first. *)
Theorem register_last_wins (σ : Store) (circuit_breakers : Registry)
    (r1 r2 : ref) (b1 b2 : CircuitBreaker) :
  σ !! r1 = Some b1 -> σ !! r2 = Some b2 -> name b1 = name b2 ->
  register σ (register σ circuit_breakers r1) r2
  = register σ circuit_breakers r2 /\
  get (register σ (register σ circuit_breakers r1) r2) (name b1) = Some r2 /\
  (forall n, n <> name b2 ->
     get (register σ (register σ circuit_breakers r1) r2) n
     = get circuit_breakers n) /\
  all_closed σ (register σ (register σ ∅ r1) r2) = closed b2.
Proof.
  intros H1 H2 Hn.
  assert (Heq : forall reg : Registry,
            register σ (register σ reg r1) r2 = register σ reg r2).
  { intros reg. unfold register. rewrite H1, H2, Hn.
    apply insert_insert_eq. }
  split; [apply Heq|]. rewrite !Heq. unfold get. split; [|split].
  - rewrite (register_lookup σ _ r2 b2) by exact H2.
    rewrite Hn. destruct (decide (name b2 = name b2)); congruence.
  - intros n Hne. rewrite (register_lookup σ _ r2 b2) by exact H2.
    destruct (decide (name b2 = n)); congruence.
  - unfold register. rewrite H2. unfold all_closed, get_open, get_circuits.
    rewrite insert_empty, map_to_list_singleton. simpl.
    unfold is_open, closed, state. rewrite H2.
    destruct (bool_decide (_state b2 = STATE_OPEN)); reflexivity.
Qed.

(** X14.  What the monitor iterates over after a registration: the breaker
    just registered, and the breakers that were registered under other
    names; a breaker that was only known under the name now taken is
    gone. *)
Theorem get_circuits_register (σ : Store) (circuit_breakers : Registry)
    (r2 : ref) (b2 : CircuitBreaker) (r : ref) :
  σ !! r2 = Some b2 ->
  In r (get_circuits (register σ circuit_breakers r2)) <->
  r = r2 \/ exists n, n <> name b2 /\ get circuit_breakers n = Some r.
Proof.
  intros H2. rewrite elem_of_get_circuits. unfold get. split.
  - intros [n Hn]. rewrite (register_lookup σ _ r2 b2) in Hn by exact H2.
    destruct (decide (name b2 = n)) as [Heq|Hne].
    + left. congruence.
    + right. exists n. split; [congruence | exact Hn].
  - intros [->|(n & Hne & Hn)].
    + exists (name b2). rewrite (register_lookup σ _ r2 b2) by exact H2.
      destruct (decide (name b2 = name b2)); congruence.
    + exists n. rewrite (register_lookup σ _ r2 b2) by exact H2.
      destruct (decide (name b2 = n)); congruence.
Qed.

(** X15.  [get_open] and [get_closed] split what [get_circuits] yields: every
    registered breaker is in one of the two, none is in both, and their
    lengths add up to the number of registered names. *)
Theorem open_closed_partition (σ : Store) (circuit_breakers : Registry) :
  (forall r, In r (get_circuits circuit_breakers) <->
     In r (get_open σ circuit_breakers) \/
     In r (get_closed σ circuit_breakers)) /\
  (forall r, ~ (In r (get_open σ circuit_breakers) /\
                In r (get_closed σ circuit_breakers))) /\
  (length (get_open σ circuit_breakers)
   + length (get_closed σ circuit_breakers))%nat = size circuit_breakers.
Proof.
  unfold get_open, get_closed. split; [|split].
  - intros r. rewrite !filter_In. destruct (is_open σ r); simpl; tauto.
  - intros r. rewrite !filter_In. intros [[_ H1] [_ H2]].
    rewrite H1 in H2. discriminate.
  - rewrite filter_length_split. unfold get_circuits.
    rewrite length_fmap. apply length_map_to_list.
Qed.

(** X16.  [all_closed] answers for the [closed] property of every registered
    breaker: it is true exactly when each of them reports [closed], which is
    exactly when [get_closed] yields all of [get_circuits]. *)
Theorem all_closed_iff_every_closed (σ : Store) (circuit_breakers : Registry) :
  (all_closed σ circuit_breakers = true <->
   forall n r b,
     get circuit_breakers n = Some r -> σ !! r = Some b ->
     closed b = true) /\
  (all_closed σ circuit_breakers = true <->
   get_closed σ circuit_breakers = get_circuits circuit_breakers).
Proof.
  split.
  - rewrite all_closed_true_iff. unfold get, closed. split.
    + intros H n r b Hn Hr. destruct (bool_decide (_state b = STATE_OPEN)) eqn:Ho;
        [|reflexivity].
      exfalso. apply (H r), elem_of_get_open. exists n, b.
      apply bool_decide_eq_true_1 in Ho. auto.
    + intros H r Hin. apply elem_of_get_open in Hin.
      destruct Hin as (n & b & Hn & Hr & Hs).
      specialize (H n r b Hn Hr). unfold state in Hs. rewrite Hs in H.
      discriminate.
  - rewrite all_closed_true_iff. unfold get_closed, get_open.
    rewrite filter_all. split.
    + intros H r Hin. destruct (is_open σ r) eqn:Ho; [|reflexivity].
      exfalso. apply (H r), filter_In. auto.
    + intros H r Hin. apply filter_In in Hin. destruct Hin as [Hin Ho].
      specialize (H r Hin). rewrite Ho in H. discriminate.
Qed.

Lemma call_at_Some {Env Res : Type} (σ : Store) (r : ref)
    (func : Func Env Res) (env : Env) (t_gate t_after : Z)
    (b : CircuitBreaker) :
  σ !! r = Some b ->
  call_at σ r func env t_gate t_after
  = Some ((call b func env t_gate t_after).1.1,
          <[ r := (call b func env t_gate t_after).1.2 ]> σ,
          (call b func env t_gate t_after).2).
Proof.
  intros Hr. unfold call_at. rewrite Hr.
  destruct (call b func env t_gate t_after) as [[res b'] env']. reflexivity.
Qed.

(** The breaker as [__call__] leaves it: named after the wrapped function
    if it had no name. *)
Lemma decorate_Some (σ : Store) (circuit_breakers : Registry) (r : ref)
    (b : CircuitBreaker) (wrapped_name : string) :
  σ !! r = Some b ->
  let named := set_name b (Some (default wrapped_name (name b))) in
  __call__ σ circuit_breakers r wrapped_name
  = (<[ r := named ]> σ, <[ name named := r ]> circuit_breakers).
Proof.
  intros Hr named. subst named. unfold __call__, register, name.
  rewrite Hr. rewrite lookup_insert_eq.
  destruct b as [ee fc ft rt st op [n|]]; reflexivity.
Qed.

(** X19.  Decorating a function with a breaker names and registers the
    breaker: a breaker constructed without a name takes the function's name,
    a breaker with a name keeps it and is unchanged; nothing else of the
    breaker changes, no other object of the store changes, and the monitor
    then returns the breaker for its name. *)
Theorem decorator_names_and_registers (σ : Store)
    (circuit_breakers : Registry) (r : ref) (b : CircuitBreaker)
    (wrapped_name : string) :
  σ !! r = Some b ->
  exists b',
    (__call__ σ circuit_breakers r wrapped_name).1 !! r = Some b' /\
    name b' = Some (default wrapped_name (name b)) /\
    b' = set_name b (name b') /\
    (forall n, name b = Some n -> b' = b) /\
    get (__call__ σ circuit_breakers r wrapped_name).2 (name b') = Some r /\
    (forall r', r' <> r ->
       (__call__ σ circuit_breakers r wrapped_name).1 !! r' = σ !! r') /\
    (forall n, n <> name b' ->
       get (__call__ σ circuit_breakers r wrapped_name).2 n
       = get circuit_breakers n).
Proof.
  intros Hr. rewrite (decorate_Some σ circuit_breakers r b wrapped_name Hr).
  exists (set_name b (Some (default wrapped_name (name b)))). simpl.
  unfold get.
  split; [apply lookup_insert_eq|]. split; [reflexivity|].
  split; [reflexivity|]. split; [|split; [|split]].
  - intros n Hn. rewrite Hn. simpl. destruct b. unfold name in Hn.
    simpl in *. subst. reflexivity.
  - apply lookup_insert_eq.
  - intros r' Hne. apply lookup_insert_ne. congruence.
  - intros n Hne. apply lookup_insert_ne. unfold name in *. simpl in *.
    congruence.
Qed.

(** X20.  Decorating a second function with the same breaker changes
    nothing: the breaker keeps the name it has, and store and registry are
    as the first decoration left them. *)
Theorem decorating_again_changes_nothing (σ : Store)
    (circuit_breakers : Registry) (r : ref) (b : CircuitBreaker)
    (first second : string) :
  σ !! r = Some b ->
  let '(σ1, reg1) := __call__ σ circuit_breakers r first in
  __call__ σ1 reg1 r second = (σ1, reg1).
Proof.
  intros Hr. rewrite (decorate_Some σ circuit_breakers r b first Hr).
  rewrite (decorate_Some _ _ r
             (set_name b (Some (default first (name b)))) second)
    by apply lookup_insert_eq.
  simpl. rewrite !insert_insert_eq. reflexivity.
Qed.

(** X21.  [str] of a breaker fails exactly when the breaker has no name, and
    otherwise is the name; after the breaker has decorated a function it
    never fails. *)
Theorem str_fails_iff_unnamed (b : CircuitBreaker) :
  ((exists e, CircuitBreaker_str b = Raise e) <-> name b = None) /\
  (forall n, CircuitBreaker_str b = Return n <-> name b = Some n) /\
  (forall (σ : Store) (circuit_breakers : Registry) (r : ref)
          (wrapped_name : string),
     σ !! r = Some b ->
     exists b',
       (__call__ σ circuit_breakers r wrapped_name).1 !! r = Some b' /\
       CircuitBreaker_str b'
       = Return (default wrapped_name (name b))).
Proof.
  unfold CircuitBreaker_str, name. split; [|split].
  - destruct (_name b); split; try discriminate; eauto.
    intros [e He]. discriminate.
  - intros n. destruct (_name b); split; congruence.
  - intros σ reg r wrapped_name Hr.
    rewrite (decorate_Some σ reg r b wrapped_name Hr). simpl.
    eexists. split; [apply lookup_insert_eq|]. reflexivity.
Qed.

(** X22.  A call of the decorated function is [call] on the breaker as the
    decorator named it, stored back into the same object; the call keeps the
    breaker's name, so the monitor still returns the breaker for it. *)
Theorem decorated_function_calls_breaker {Env Res : Type} (σ : Store)
    (circuit_breakers : Registry) (r : ref) (b : CircuitBreaker)
    (wrapped_name : string) (wrapped : Func Env Res) (env : Env)
    (t_gate t_after : Z) :
  σ !! r = Some b ->
  let '(σ1, reg1) := __call__ σ circuit_breakers r wrapped_name in
  let named := set_name b (Some (default wrapped_name (name b))) in
  let out := call named wrapped env t_gate t_after in
  wrapper r wrapped σ1 env t_gate t_after
  = Some (out.1.1, <[ r := out.1.2 ]> σ1, out.2) /\
  name out.1.2 = name named /\
  get reg1 (name out.1.2) = Some r.
Proof.
  intros Hr. rewrite (decorate_Some σ circuit_breakers r b wrapped_name Hr).
  simpl. split; [|split].
  - unfold wrapper. apply call_at_Some. apply lookup_insert_eq.
  - apply call_keeps_name.
  - rewrite call_keeps_name. unfold get. apply lookup_insert_eq.
Qed.

(** ** Instances *)

Lemma call_rejects_iff_witness :
  exists out,
    call_checked (open fresh_breaker 0) succeeding_stub [] 5 5 = Return out /\
    exists err, out.1.1 = Rejected err.
Proof.
  destruct (call_rejects_iff (open fresh_breaker 0) succeeding_stub [] 5 5)
    as (out & Hcall & Hiff & _).
  - intros _. split; split; vm_compute; discriminate.
  - exists out. split; [exact Hcall|].
    apply Hiff. right. split; reflexivity.
Defined.

Lemma call_passes_outcome_through_witness :
  (call fresh_breaker failing_stub [] 5 6).1.1
  = Propagated (ValueError "boom") /\
  (call fresh_breaker failing_stub [] 5 6).2 = [STATE_CLOSED].
Proof.
  destruct (call_passes_outcome_through fresh_breaker failing_stub [] 5 6
              eq_refl) as [Henv Hres].
  split; [exact Hres | exact Henv].
Defined.

Lemma closed_yet_rejecting_iff_half_open_witness :
  closed (set_state fresh_breaker STATE_HALF_OPEN) = true /\
  exists err,
    (call (set_state fresh_breaker STATE_HALF_OPEN) succeeding_stub [] 5 5).1.1
    = Rejected err.
Proof.
  apply closed_yet_rejecting_iff_half_open. reflexivity.
Defined.

Lemma failure_count_never_negative_witness :
  0 <= failure_count
         (perform_all fresh_breaker []
            [DoCall failing_stub 1 2; DoOpen 3; DoClose;
             DoCall failing_stub 4 5]).1.
Proof.
  apply failure_count_never_negative. simpl. lia.
Defined.

Lemma opened_written_only_on_open_witness :
  state (perform fresh_breaker ([] : list State)
           (DoOpen (Res := unit) 7)).1 = STATE_OPEN /\
  open_reading (DoOpen (Env := list State) (Res := unit) 7) = Some 7.
Proof.
  apply (opened_written_only_on_open fresh_breaker ([] : list State)
           (DoOpen (Res := unit) 7)).
  simpl. discriminate.
Defined.

Lemma admission_is_monotone_witness :
  40000000 <= 50000000 /\
  forall err,
    (call tripped_breaker failing_stub [] 50000000 50000001).1.1
    <> Rejected err.
Proof.
  split; [lia|].
  apply (admission_is_monotone tripped_breaker succeeding_stub failing_stub
           [] [] 40000000 40000001).
  - intros err. simpl. discriminate.
  - lia.
Defined.

Lemma non_positive_timeout_never_rejects_witness :
  call_checked (mkCircuitBreaker default_expected_exception 5 5 0 STATE_OPEN
                  10 (Some "svc")) succeeding_stub [] 10 10
  = Return (Returned tt,
            close (mkCircuitBreaker default_expected_exception 5 5 0
                     STATE_OPEN 10 (Some "svc")), [STATE_HALF_OPEN]).
Proof.
  destruct (non_positive_timeout_never_rejects
              (mkCircuitBreaker default_expected_exception 5 5 0 STATE_OPEN
                 10 (Some "svc")) succeeding_stub [] 10 10) as [Hcall _].
  - simpl. lia.
  - reflexivity.
  - split; vm_compute; discriminate.
  - split; vm_compute; discriminate.
  - simpl. lia.
  - rewrite Hcall. reflexivity.
Defined.

Lemma threshold_at_most_one_opens_at_once_witness :
  let b := mkCircuitBreaker default_expected_exception 0 0 30 STATE_CLOSED 0
             (Some "svc") in
  state (call b failing_stub [] 5 6).1.2 = STATE_OPEN /\
  _opened (call b failing_stub [] 5 6).1.2 = 6 /\
  failure_count (call b failing_stub [] 5 6).1.2 = failure_count b + 1.
Proof.
  intros b. apply (threshold_at_most_one_opens_at_once b failing_stub [] 5 6).
  - simpl. lia.
  - simpl. lia.
  - reflexivity.
  - exists (ValueError "boom"). split; reflexivity.
Defined.

Lemma successes_leave_closed_breaker_unchanged_witness :
  (calls fresh_breaker []
     [(succeeding_stub, 1, 1); (succeeding_stub, 2, 2)]).1.2 = fresh_breaker.
Proof.
  apply successes_leave_closed_breaker_unchanged.
  - reflexivity.
  - reflexivity.
  - simpl. repeat (constructor; [exists tt; reflexivity|]). constructor.
Defined.

Lemma success_forgets_failures_witness :
  (call
     (calls small_breaker []
        [(failing_stub, 1, 2); (failing_stub, 3, 4)]).1.2
     succeeding_stub
     (calls small_breaker []
        [(failing_stub, 1, 2); (failing_stub, 3, 4)]).2 5 6).1.2
  = small_breaker.
Proof.
  apply (success_forgets_failures small_breaker []
           [(failing_stub, 1, 2); (failing_stub, 3, 4)] succeeding_stub 5 6
           tt).
  - reflexivity.
  - reflexivity.
  - simpl. lia.
  - simpl.
    repeat (constructor; [exists (ValueError "boom"); split; reflexivity|]).
    constructor.
  - reflexivity.
Defined.

Lemma automatic_operation_never_sticks_witness :
  state (perform_all fresh_breaker []
           [DoCall failing_stub 1 2; DoCall failing_stub 3 4;
            DoCall failing_stub 5 6; DoCall failing_stub 7 8;
            DoCall failing_stub 9 10;
            DoCall failing_stub 40000000 40000001]).1
  <> STATE_HALF_OPEN.
Proof.
  apply automatic_operation_never_sticks.
  - left. reflexivity.
  - repeat (constructor;
            [intros b env e env' [= <- _]; reflexivity|]).
    constructor.
Defined.

Lemma register_last_wins_witness :
  get (register two_breakers (register two_breakers ∅ 1%positive) 2%positive)
    (Some "svc") = Some 2%positive /\
  all_closed two_breakers
    (register two_breakers (register two_breakers ∅ 1%positive) 2%positive)
  = true.
Proof.
  destruct (register_last_wins two_breakers ∅ 1%positive 2%positive
              tripped_breaker fresh_breaker)
    as (_ & Hget & _ & Hall); [reflexivity | reflexivity | reflexivity |].
  split; [exact Hget | exact Hall].
Defined.

Lemma get_circuits_register_witness :
  In 2%positive (get_circuits (register two_breakers ∅ 2%positive)).
Proof.
  apply (get_circuits_register two_breakers ∅ 2%positive fresh_breaker);
    [reflexivity|].
  left. reflexivity.
Defined.

Lemma open_closed_partition_witness :
  In 1%positive (get_open two_breakers (register two_breakers ∅ 1%positive))
  \/ In 1%positive
       (get_closed two_breakers (register two_breakers ∅ 1%positive)).
Proof.
  apply (proj1 (open_closed_partition two_breakers
                  (register two_breakers ∅ 1%positive))).
  apply elem_of_get_circuits. exists (Some "svc"). reflexivity.
Defined.

Lemma all_closed_iff_every_closed_witness :
  closed fresh_breaker = true.
Proof.
  assert (Hall : all_closed two_breakers (register two_breakers ∅ 2%positive)
                 = true) by reflexivity.
  apply (proj1 (proj1 (all_closed_iff_every_closed two_breakers
                         (register two_breakers ∅ 2%positive)))
           Hall (Some "svc") 2%positive fresh_breaker);
    reflexivity.
Defined.

Lemma decorator_names_and_registers_witness :
  exists b',
    (__call__ unnamed_store ∅ 1%positive "fetch").1
      !! 1%positive = Some b' /\
    name b' = Some "fetch".
Proof.
  destruct (decorator_names_and_registers unnamed_store
              ∅ 1%positive unnamed_breaker "fetch")
    as (b' & Hb' & Hn & _); [reflexivity|].
  exists b'. split; [exact Hb' | exact Hn].
Defined.

Lemma decorating_again_changes_nothing_witness :
  let '(σ1, reg1) :=
    __call__ unnamed_store ∅ 1%positive "fetch" in
  __call__ σ1 reg1 1%positive "store" = (σ1, reg1).
Proof.
  apply (decorating_again_changes_nothing unnamed_store
           ∅ 1%positive unnamed_breaker "fetch" "store").
  reflexivity.
Defined.

Lemma str_fails_iff_unnamed_witness :
  (exists e, CircuitBreaker_str unnamed_breaker = Raise e) /\
  CircuitBreaker_str fresh_breaker = Return "svc".
Proof.
  split.
  - apply (proj1 (str_fails_iff_unnamed unnamed_breaker)). reflexivity.
  - apply (proj1 (proj2 (str_fails_iff_unnamed fresh_breaker))). reflexivity.
Defined.

Lemma decorated_function_calls_breaker_witness :
  let '(σ1, reg1) :=
    __call__ unnamed_store ∅ 1%positive "fetch" in
  let named := set_name unnamed_breaker (Some "fetch") in
  let out := call named failing_stub [] 1 2 in
  wrapper 1%positive failing_stub σ1 [] 1 2
  = Some (out.1.1, <[ 1%positive := out.1.2 ]> σ1, out.2) /\
  name out.1.2 = Some "fetch" /\
  get reg1 (name out.1.2) = Some 1%positive.
Proof.
  apply (decorated_function_calls_breaker unnamed_store
           ∅ 1%positive unnamed_breaker "fetch" failing_stub [] 1 2).
  reflexivity.
Defined.

(** * The manual overrides and the recovery cycle *)

Section Recovery.
Context {Env Res : Type}.
Implicit Types (self : CircuitBreaker) (func : Func Env Res) (env : Env).

(** X23.  After a manual [open] at some clock reading the breaker rejects
    calls for the recovery timeout and no longer, whatever its state and
    count were, provided the reading plus the timeout is a [datetime]: a call
    is rejected exactly when the clock reads less than the opening time plus
    the timeout. *)
Theorem open_blocks_for_timeout self func env (utcnow t_gate t_after : Z) :
  is_datetime utcnow ->
  is_datetime (utcnow + 1000000 * _recover_timeout self) ->
  exists out,
    call_checked (open self utcnow) func env t_gate t_after = Return out /\
    ((exists err, out.1.1 = Rejected err)
     <-> t_gate < utcnow + 1000000 * _recover_timeout self).
Proof.
  intros Hd Hu. exists (call (open self utcnow) func env t_gate t_after).
  split; [apply call_checked_in_range; intros _; split; assumption|].
  destruct (call_cases (open self utcnow) func env t_gate t_after)
    as [[Hst ->]|[(Hs & _ & _)|(_ & Hge & _ & ->)]].
  - split; [intros _|eauto].
    destruct Hst as [Hs|[_ Hlt]]; [discriminate Hs | exact Hlt].
  - discriminate Hs.
  - split.
    + intros [err Herr]. destruct (guarded_not_rejected _ _ _ _ Herr).
    + intros Hlt. unfold open_until in Hge. simpl in Hge. lia.
Qed.

(** X24.  After [close] the next call runs, whatever the breaker's state was
    and whatever the clock reads: the function is invoked against the closed
    breaker with the count at zero. *)
Theorem close_admits_next_call self func env (t_gate t_after : Z) :
  call (close self) func env t_gate t_after
  = guarded (close self) (func (close self) env) t_after /\
  state (close self) = STATE_CLOSED /\
  failure_count (close self) = 0 /\
  forall err,
    (call (close self) func env t_gate t_after).1.1 <> Rejected err.
Proof.
  assert (Hcall : call (close self) func env t_gate t_after
                  = guarded (close self) (func (close self) env) t_after)
    by (apply call_when_closed; reflexivity).
  split; [exact Hcall|]. split; [reflexivity|]. split; [reflexivity|].
  intros err. rewrite Hcall. apply guarded_not_rejected.
Qed.

(** X25.  An unexpected exception in the trial call locks the breaker.  When
    the call let through from the open state raises an exception the breaker
    does not expect, the breaker is left half open, and from then on every
    call is rejected without the function being invoked, whatever the clock
    reads; only [close] or [open] gets it out. *)
Theorem unexpected_trial_exception_locks_breaker self func env
    (t_gate t_after : Z) (e : Exn) env'
    (l : list (Func Env Res * Z * Z)) :
  state self = STATE_OPEN ->
  open_until self <= t_gate ->
  func (set_state self STATE_HALF_OPEN) env = (Raise e, env') ->
  isinstance e (_expected_exception self) = false ->
  let locked := set_state self STATE_HALF_OPEN in
  call self func env t_gate t_after = (Propagated e, locked, env') /\
  calls locked env' l
  = (map (fun _ => Rejected (CircuitBreakerError_init locked)) l,
     locked, env').
Proof.
  intros Hs Hge Hrun Hexp locked. subst locked. split.
  - unfold call. rewrite is_closed_when_open_late by assumption.
    rewrite Hrun. simpl. rewrite Hexp. reflexivity.
  - apply calls_when_half_open. reflexivity.
Qed.

(** X26.  A trial call that returns completes the recovery: the breaker is
    closed with the count at zero, nothing else of it has changed, and the
    next call is run, not rejected. *)
Theorem trial_success_closes self func env (t_gate t_after : Z)
    (result : Res) env' :
  state self = STATE_OPEN ->
  open_until self <= t_gate ->
  func (set_state self STATE_HALF_OPEN) env = (Return result, env') ->
  call self func env t_gate t_after = (Returned result, close self, env') /\
  state (close self) = STATE_CLOSED /\
  failure_count (close self) = 0 /\
  _opened (close self) = _opened self /\
  forall func' (t_gate' t_after' : Z) err,
    (call (close self) func' env' t_gate' t_after').1.1 <> Rejected err.
Proof.
  intros Hs Hge Hrun. split; [|split; [|split; [|split]]]; try reflexivity.
  - unfold call. rewrite is_closed_when_open_late by assumption.
    rewrite Hrun. reflexivity.
  - intros func' t_gate' t_after' err.
    rewrite call_when_closed by reflexivity. apply guarded_not_rejected.
Qed.
End Recovery.

Lemma open_blocks_for_timeout_witness :
  exists out,
    call_checked (open fresh_breaker 100) succeeding_stub []
      29000000 29000000 = Return out /\
    exists err, out.1.1 = Rejected err.
Proof.
  destruct (open_blocks_for_timeout fresh_breaker succeeding_stub [] 100
              29000000 29000000) as (out & Hcall & Hiff).
  - split; vm_compute; discriminate.
  - split; vm_compute; discriminate.
  - exists out. split; [exact Hcall|].
    apply Hiff. vm_compute. reflexivity.
Defined.


Lemma unexpected_trial_exception_locks_breaker_witness :
  let locked := set_state tripped_breaker STATE_HALF_OPEN in
  call tripped_breaker interrupted_stub [] 40000000 40000001
  = (Propagated KeyboardInterrupt, locked, [STATE_HALF_OPEN]) /\
  calls locked [STATE_HALF_OPEN] [(succeeding_stub, 90000000, 90000000)]
  = ([Rejected (CircuitBreakerError_init locked)], locked, [STATE_HALF_OPEN]).
Proof.
  apply (unexpected_trial_exception_locks_breaker tripped_breaker
           interrupted_stub [] 40000000 40000001 KeyboardInterrupt
           [STATE_HALF_OPEN] [(succeeding_stub, 90000000, 90000000)]).
  - reflexivity.
  - vm_compute. discriminate.
  - reflexivity.
  - reflexivity.
Defined.

Lemma trial_success_closes_witness :
  call tripped_breaker succeeding_stub [] 40000000 40000001
  = (Returned tt, close tripped_breaker, [STATE_HALF_OPEN]) /\
  failure_count (close tripped_breaker) = 0.
Proof.
  destruct (trial_success_closes tripped_breaker succeeding_stub []
              40000000 40000001 tt [STATE_HALF_OPEN])
    as (Hcall & _ & Hc & _); [reflexivity | vm_compute; discriminate | reflexivity |].
  split; [exact Hcall | exact Hc].
Defined.

Lemma close_admits_next_call_witness :
  call (close tripped_breaker) succeeding_stub [] 8000000 8000000
  = (Returned tt, close tripped_breaker, [STATE_CLOSED]) /\
  failure_count (close tripped_breaker) = 0.
Proof.
  destruct (close_admits_next_call tripped_breaker succeeding_stub []
              8000000 8000000) as (Hcall & _ & Hc & _).
  split; [exact Hcall | exact Hc].
Defined.
